(** * CBUAE exchange-rate scraper and ChromeDriver installer

    A shallow embedding of [scripts/cbuae_extractor.py] and
    [scripts/install_chrome.py], and the properties of the two scripts.

    Conventions of the embedding:
    - a Python [str] is a [string]; the model covers ASCII text (the
      case mapping, the white-space class and the digits are the ASCII
      ones, characters above 127 are left as they are);
    - a Python [float] is a binary64 number, a [spec_float] rounded with
      [prec = 53] and [emax = 1024];
    - a [dict] with [str] keys is a [gmap string _];
    - a call into the outside world (browser, sub-process, network, file
      system) takes its outcome from a world record; an outcome is a value
      or a raised exception. *)

From stdpp Require Import gmap strings list pretty.
From Stdlib Require Import ZArith Ascii Bool Lia.
From Stdlib Require Import Floats.SpecFloat.

Local Open Scope Z_scope.

(** ** Python built-ins used by the scripts *)

Module Py.

(** Characters that [str.strip()] and [str.split()] treat as white space:
    TAB, LF, VT, FF, CR, FS, GS, RS, US and the space. *)
Definition is_whitespace (c : ascii) : bool :=
  let n := N_of_ascii c in
  ((9 <=? n) && (n <=? 13) || (28 <=? n) && (n <=? 32))%N.

(** Characters that [float()] skips around the number of an ASCII text:
    TAB, LF, VT, FF, CR and the space. *)
Definition is_space (c : ascii) : bool :=
  let n := N_of_ascii c in
  ((9 <=? n) && (n <=? 13) || (n =? 32))%N.

Fixpoint lstrip_of (ws : ascii -> bool) (s : string) : string :=
  match s with
  | EmptyString => EmptyString
  | String c s' => if ws c then lstrip_of ws s' else s
  end.

Fixpoint rstrip_of (ws : ascii -> bool) (s : string) : string :=
  match s with
  | EmptyString => EmptyString
  | String c s' =>
      match rstrip_of ws s' with
      | EmptyString => if ws c then EmptyString else String c EmptyString
      | r => String c r
      end
  end.

(** [s.strip()] *)
Definition strip (s : string) : string :=
  rstrip_of is_whitespace (lstrip_of is_whitespace s).

Definition lower_char (c : ascii) : ascii :=
  let n := N_of_ascii c in
  if ((65 <=? n) && (n <=? 90))%N then ascii_of_N (n + 32) else c.

(** [s.lower()] *)
Fixpoint lower (s : string) : string :=
  match s with
  | EmptyString => EmptyString
  | String c s' => String (lower_char c) (lower s')
  end.

(** [needle in hay] on strings: [needle] occurs as a substring. *)
Fixpoint str_in (needle hay : string) : bool :=
  String.prefix needle hay ||
  match hay with
  | EmptyString => false
  | String _ hay' => str_in needle hay'
  end.

(** [s.replace(old, new)] for a one-character [old]. *)
Fixpoint replace (old : ascii) (new s : string) : string :=
  match s with
  | EmptyString => EmptyString
  | String c s' =>
      if Ascii.eqb c old then new +:+ replace old new s'
      else String c (replace old new s')
  end.

(** [s.startswith(p)] *)
Definition startswith (s p : string) : bool := String.prefix p s.

(** [s.split(sep)] for a one-character [sep]: never empty. *)
Fixpoint split (sep : ascii) (s : string) : list string :=
  match s with
  | EmptyString => [EmptyString]
  | String c s' =>
      if Ascii.eqb c sep then EmptyString :: split sep s'
      else match split sep s' with
           | [] => [String c EmptyString]
           | w :: ws => String c w :: ws
           end
  end.

(** [s.split()]: the maximal runs of characters that are not white
    space. *)
Fixpoint split_ws_aux (s : string) (cur : string) : list string :=
  match s with
  | EmptyString =>
      match cur with EmptyString => [] | _ => [cur] end
  | String c s' =>
      if is_whitespace c then
        match cur with
        | EmptyString => split_ws_aux s' EmptyString
        | _ => cur :: split_ws_aux s' EmptyString
        end
      else split_ws_aux s' (cur +:+ String c EmptyString)
  end.

Definition split_ws (s : string) : list string :=
  split_ws_aux s EmptyString.

(** Truth value of a [str]: the empty string is false. *)
Definition truthy (s : string) : bool :=
  match s with EmptyString => false | _ => true end.

(** Truth value of a variable holding [None] or a [str]. *)
Definition truthy_opt (o : option string) : bool :=
  match o with None => false | Some s => truthy s end.

(** *** [float] *)

Definition prec : Z := 53.
Definition emax : Z := 1024.

Definition is_digit (c : ascii) : bool :=
  let n := N_of_ascii c in ((48 <=? n) && (n <=? 57))%N.

Definition digit_val (c : ascii) : N := (N_of_ascii c - 48)%N.

(** The decimal [m * 10^e], with its sign, rounded to the nearest
    binary64 number, ties to even; an overflow gives an infinity. *)
Definition of_decimal (neg : bool) (m : N) (e : Z) : spec_float :=
  match m with
  | N0 => S754_zero neg
  | Npos p =>
      if 0 <=? e then
        binary_round prec emax neg (p * Z.to_pos (10 ^ e))%positive 0
      else
        SFdiv prec emax (S754_finite neg p 0)
              (S754_finite false (Z.to_pos (10 ^ (- e))) 0)
  end.

(** Underscores of a numeric literal: each one stands between two
    digits; they are removed, any other underscore is an error. *)
Fixpoint strip_underscores (prev : ascii) (s : string) : option string :=
  match s with
  | EmptyString =>
      if Ascii.eqb prev "_" then None else Some EmptyString
  | String c s' =>
      if Ascii.eqb c "_" then
        if is_digit prev then strip_underscores c s' else None
      else if Ascii.eqb prev "_" && negb (is_digit c) then None
      else option_map (String c) (strip_underscores c s')
  end.

(** A run of digits: its value appended to [acc], the number of digits
    read, and the rest of the text. *)
Fixpoint take_digits (s : string) (acc : N) (cnt : nat)
  : N * nat * string :=
  match s with
  | String c s' =>
      if is_digit c then take_digits s' (acc * 10 + digit_val c)%N (S cnt)
      else (acc, cnt, s)
  | EmptyString => (acc, cnt, s)
  end.

Definition take_sign (s : string) : bool * string :=
  match s with
  | String "-" s' => (true, s')
  | String "+" s' => (false, s')
  | _ => (false, s)
  end.

(** The exponent part, empty or [e], an optional sign and at least one
    digit, up to the end of the text. *)
Definition parse_exponent (s : string) : option Z :=
  match s with
  | EmptyString => Some 0
  | String c s' =>
      if Ascii.eqb (lower_char c) "e" then
        let '(eneg, s'') := take_sign s' in
        match take_digits s'' 0%N 0%nat with
        | (_, O, _) => None
        | (v, S _, EmptyString) =>
            Some (if eneg then - Z.of_N v else Z.of_N v)
        | _ => None
        end
      else None
  end.

(** [digits [. digits]] or [. digits], then the exponent. *)
Definition parse_number (neg : bool) (s : string) : option spec_float :=
  let '(ip, n_ip, r1) := take_digits s 0%N 0%nat in
  let '(m, n_fp, r2) :=
    match r1 with
    | String "." r1' => take_digits r1' ip 0%nat
    | _ => (ip, 0%nat, r1)
    end in
  match (n_ip + n_fp)%nat with
  | O => None
  | S _ =>
      match parse_exponent r2 with
      | Some e => Some (of_decimal neg m (e - Z.of_nat n_fp))
      | None => None
      end
  end.

(** [float(s)] for a [str]: [None] stands for the [ValueError]. *)
Definition float (s : string) : option spec_float :=
  match strip_underscores "000"
          (rstrip_of is_space (lstrip_of is_space s)) with
  | None => None
  | Some t =>
      let '(neg, body) := take_sign t in
      let lb := lower body in
      if String.eqb lb "inf" || String.eqb lb "infinity" then
        Some (S754_infinity neg)
      else if String.eqb lb "nan" then Some S754_nan
      else parse_number neg body
  end.

(** [x <= y] on floats: false as soon as one side is a NaN. *)
Definition float_le (x y : spec_float) : bool := SFleb x y.

End Py.

(** ** Outcomes of calls that can raise *)

(** The exception classes the two scripts name or can meet; all of them
    derive from [Exception], so that [except Exception] and a bare
    [except] take each of them. [KeyboardInterrupt] and [SystemExit] are
    not part of the model. *)
Inductive exn : Type :=
  | ImportError
  | ValueError (msg : string)
  | RuntimeError (msg : string)
  | IndexError
  | FileNotFoundError
  | PermissionError
  | CalledProcessError
  | TimeoutExpired
  | WebDriverException (msg : string)
  | RequestException (msg : string).

Inductive result (A : Type) : Type :=
  | Return (a : A)
  | Raise (e : exn).
Arguments Return {A} a.
Arguments Raise {A} e.

Definition is_return {A} (r : result A) : bool :=
  match r with Return _ => true | Raise _ => false end.

(** Truth value of a path or [None]: the paths returned are not empty. *)
Definition is_Some_bool {A} (o : option A) : bool :=
  match o with Some _ => true | None => false end.

(** What [subprocess.run(..., capture_output=True, text=True)] returns. *)
Record completed := Completed {
  returncode : Z;
  stdout : string;
  stderr : string
}.

(** ** The rate extractor: [scripts/cbuae_extractor.py] *)

Module Extractor.
Import Py.

(** *** The browser as the extractor sees it *)

(** A [td] element: reading its [text] can raise. *)
Record cell := Cell { text : result string }.

(** A [tr] element: [row.find_elements(By.TAG_NAME, "td")]. *)
Record row := Row { find_cells : result (list cell) }.

(** The [table] element: [table.find_elements(By.TAG_NAME, "tr")]. *)
Record table := Table { find_rows : result (list row) }.

(** A browser session: each field is the outcome of one call of
    [extract_exchange_rates] on the driver. *)
Record driver := Driver {
  get_page : result unit;      (* driver.get(url) *)
  agree : result unit;         (* wait for the disclaimer link and click *)
  find_table : result table;   (* wait.until(presence of a table) *)
  quit : result unit           (* driver.quit() *)
}.

Record world := World {
  selenium_installed : bool;       (* the selenium imports succeed *)
  chrome : result driver;          (* webdriver.Chrome(options=...) *)
  chrome_managed : result driver   (* the webdriver_manager fallback *)
}.

(** [setup_chrome_driver()]: a driver, or [None]. *)
Definition setup_chrome_driver (w : world) : option driver :=
  if selenium_installed w then
    match chrome w with
    | Return d => Some d
    | Raise _ =>
        match chrome_managed w with
        | Return d => Some d
        | Raise _ => None
        end
    end
  else None.

(** *** [is_valid_rate] *)

(** The literals [0.0000001] and [100.0]. *)
Definition rate_min : spec_float := of_decimal false 1 (-7).
Definition rate_max : spec_float := of_decimal false 1000 (-1).

Definition is_valid_rate (text : string) : bool :=
  let clean_text := replace "," "" (replace " " "" text) in
  match float clean_text with
  | Some rate => float_le rate_min rate && float_le rate rate_max
  | None => false
  end.

(** *** The scan of one row *)

(** The inner loop over [target_currencies] for one cell text. *)
Fixpoint scan_targets (text : string) (targets : list string)
    (currency_found : option string) : option string :=
  match targets with
  | [] => currency_found
  | target :: targets' =>
      if str_in (lower target) (lower text) then Some text
      else scan_targets text targets' currency_found
  end.

(** The outer loop over [all_texts], left when [currency_found] is
    true. *)
Fixpoint scan_cells (all_texts targets : list string)
    (currency_found : option string) : option string :=
  match all_texts with
  | [] => currency_found
  | text :: all_texts' =>
      let currency_found := scan_targets text targets currency_found in
      if truthy_opt currency_found then currency_found
      else scan_cells all_texts' targets currency_found
  end.

Definition find_currency (targets all_texts : list string)
  : option string :=
  scan_cells all_texts targets None.

(** The loop that looks for the rate. *)
Fixpoint find_rate (all_texts : list string) : option string :=
  match all_texts with
  | [] => None
  | text :: all_texts' =>
      if is_valid_rate text then Some text else find_rate all_texts'
  end.

(** The pair a list of cell texts yields, if any. *)
Definition row_entry (targets all_texts : list string)
  : option (string * string) :=
  let currency_found := find_currency targets all_texts in
  let rate_found :=
    if truthy_opt currency_found then find_rate all_texts else None in
  match currency_found, rate_found with
  | Some c, Some r => if truthy c && truthy r then Some (c, r) else None
  | _, _ => None
  end.

(** [[cell.text.strip() for cell in cells]] *)
Fixpoint all_texts_of (cells : list cell) : result (list string) :=
  match cells with
  | [] => Return []
  | c :: cells' =>
      match text c with
      | Raise e => Raise e
      | Return t =>
          match all_texts_of cells' with
          | Raise e => Raise e
          | Return ts => Return (strip t :: ts)
          end
      end
  end.

(** The body of the loop over the rows, before its [except]. The index
    of the row only selects the rows that are printed. *)
Definition row_body (targets : list string) (r : row)
    (found_currencies : gmap string string)
  : result (gmap string string) :=
  match find_cells r with
  | Raise e => Raise e
  | Return cells =>
      if (2 <=? length cells)%nat then
        match all_texts_of cells with
        | Raise e => Raise e
        | Return all_texts =>
            match row_entry targets all_texts with
            | Some (c, rate) => Return (<[c := rate]> found_currencies)
            | None => Return found_currencies
            end
        end
      else Return found_currencies
  end.

(** One iteration: [except Exception: continue]. *)
Definition process_row (targets : list string)
    (found_currencies : gmap string string) (r : row)
  : gmap string string :=
  match row_body targets r found_currencies with
  | Return d => d
  | Raise _ => found_currencies
  end.

Fixpoint scan_rows (targets : list string)
    (found_currencies : gmap string string) (rows : list row)
  : gmap string string :=
  match rows with
  | [] => found_currencies
  | r :: rows' =>
      scan_rows targets (process_row targets found_currencies r) rows'
  end.

(** Truth value of a [dict]. *)
Definition dict_truthy {V} (d : gmap string V) : bool :=
  negb (Nat.eqb (size d) 0).

(** *** [extract_exchange_rates] *)

(** The [try] block. *)
Definition extract_try (d : driver) (targets : list string)
  : result (option (gmap string string)) :=
  match get_page d with
  | Raise e => Raise e
  | Return _ =>
      (* the disclaimer: try ... except: pass *)
      let _ := agree d in
      match find_table d with
      | Raise e => Raise e
      | Return tbl =>
          match find_rows tbl with
          | Raise e => Raise e
          | Return rows =>
              let found_currencies := scan_rows targets ∅ rows in
              Return (if dict_truthy found_currencies
                      then Some found_currencies else None)
          end
      end
  end.

(** [try: ... except Exception: return None finally: driver.quit()] *)
Definition extract_exchange_rates (w : world) (targets : list string)
  : result (option (gmap string string)) :=
  match setup_chrome_driver w with
  | None => Return None
  | Some d =>
      let outcome :=
        match extract_try d targets with
        | Return r => Return r
        | Raise _ => Return None
        end in
      match quit d with
      | Return _ => outcome
      | Raise e => Raise e
      end
  end.

(** *** Persistence and publication *)

(** The host of the script: clock, file system and [git]. The outcome
    of a call is the same each time the script makes it in one run. A
    write that fails leaves the file as it was. *)
Record host := Host {
  now_utc : string;     (* datetime.now(timezone.utc).isoformat() *)
  now_local : string;   (* datetime.now().strftime('%Y-%m-%d %H:%M:%S') *)
  today : string;       (* datetime.now().strftime('%Y-%m-%d') *)
  elapsed : spec_float; (* round(time.time() - start_time, 2) *)
  started : spec_float; (* time.time() before the extraction *)
  mkdir_data : result unit;            (* Path("data").mkdir(exist_ok=True) *)
  open_write : string -> result unit;  (* open(path, 'w') and the dump *)
  run : list string -> result completed  (* subprocess.run(argv, ...) *)
}.

Record rate_record := RateRecord {
  currency : string;
  rate : string;
  rate_float : spec_float;
  extraction_timestamp : string;
  extraction_method : string
}.

Record metadata := Metadata {
  last_extraction : string;
  meta_extraction_method : string;
  currencies_extracted : nat;
  extraction_duration_seconds : spec_float;
  success : bool;
  source_url : string;
  extractor_version : string;
  meta_target_currencies : list string;
  notes : string
}.

(** The [extraction_stats] dictionary, read with [.get(key, default)]. *)
Record extraction_stats := Stats {
  stat_duration : option spec_float;
  stat_target_currencies : option (list string);
  stat_start_time : option spec_float
}.

Inductive file : Type :=
  | CsvFile (rows : list rate_record)
  | JsonFile (rows : list rate_record)
  | MetadataFile (m : metadata).

(** The rows of a file, one per item of the dictionary; [float(rate)]
    can raise. The items come in the order of [map_to_list]. *)
Fixpoint rate_rows (timestamp : string) (items : list (string * string))
  : result (list rate_record) :=
  match items with
  | [] => Return []
  | (c, r) :: items' =>
      match float r with
      | None => Raise (ValueError "could not convert string to float")
      | Some f =>
          match rate_rows timestamp items' with
          | Raise e => Raise e
          | Return rows =>
              Return (RateRecord c r f timestamp "selenium_simple" :: rows)
          end
      end
  end.

Definition data_path (filename : string) : string := "data/" +:+ filename.

(** [save_to_csv(data, filename)] for a [dict]: the path, or [None]. *)
Definition save_to_csv (h : host) (data : gmap string string)
    (filename : string) (fs : gmap string file)
  : option string * gmap string file :=
  match mkdir_data h with
  | Raise _ => (None, fs)
  | Return _ =>
      let filepath := data_path filename in
      match rate_rows (now_utc h) (map_to_list data) with
      | Raise _ => (None, fs)
      | Return [] => (Some filepath, fs)
      | Return csv_data =>
          match open_write h filepath with
          | Raise _ => (None, fs)
          | Return _ => (Some filepath, <[filepath := CsvFile csv_data]> fs)
          end
      end
  end.

(** [save_to_json(data, filename)] for a [dict]. *)
Definition save_to_json (h : host) (data : gmap string string)
    (filename : string) (fs : gmap string file)
  : option string * gmap string file :=
  match mkdir_data h with
  | Raise _ => (None, fs)
  | Return _ =>
      let filepath := data_path filename in
      match rate_rows (now_utc h) (map_to_list data) with
      | Raise _ => (None, fs)
      | Return json_data =>
          match open_write h filepath with
          | Raise _ => (None, fs)
          | Return _ => (Some filepath, <[filepath := JsonFile json_data]> fs)
          end
      end
  end.

(** Truth value of [data], a [dict] or [None]. *)
Definition data_truthy (data : option (gmap string string)) : bool :=
  match data with
  | Some d => dict_truthy d
  | None => false
  end.

(** [len(data)] where [data] is true. *)
Definition data_len (data : option (gmap string string)) : nat :=
  match data with
  | Some d => size d
  | None => 0
  end.

(** The [metadata] dictionary of [save_metadata]. *)
Definition build_metadata (h : host)
    (data : option (gmap string string)) (stats : extraction_stats)
  : metadata :=
  {| last_extraction := now_utc h;
     meta_extraction_method := "selenium_simple";
     currencies_extracted := if data_truthy data then data_len data
                             else 0%nat;
     extraction_duration_seconds :=
       default (S754_zero false) (stat_duration stats);
     success := if data_truthy data then (0 <? data_len data)%nat
                else false;
     source_url :=
       "https://www.centralbank.ae/en/forex-eibor/exchange-rates/";
     extractor_version := "1.0.0";
     meta_target_currencies := default [] (stat_target_currencies stats);
     notes := if data_truthy data
              then "Extracted " +:+ pretty (data_len data)
                   +:+ " currencies successfully"
              else "Extraction failed" |}.

(** [save_metadata(data, extraction_stats)] *)
Definition save_metadata (h : host)
    (data : option (gmap string string)) (stats : extraction_stats)
    (fs : gmap string file)
  : option string * gmap string file :=
  match mkdir_data h with
  | Raise _ => (None, fs)
  | Return _ =>
      let m := build_metadata h data stats in
      let filepath := data_path "metadata.json" in
      match open_write h filepath with
      | Raise _ => (None, fs)
      | Return _ => (Some filepath, <[filepath := MetadataFile m]> fs)
      end
  end.

(** The [try] block of [commit_and_push]. *)
Definition commit_and_push_try (h : host) : result bool :=
  match run h ["git"; "status"] with
  | Raise e => Raise e
  | Return st =>
      if negb (returncode st =? 0) then Return false
      else
        match run h ["git"; "add"; "data/"] with
        | Raise e => Raise e
        | Return ad =>
            if negb (returncode ad =? 0) then Return false
            else
              let commit_message :=
                "Update CBUAE rates - " +:+ now_local h in
              match run h ["git"; "commit"; "-m"; commit_message] with
              | Raise e => Raise e
              | Return cm =>
                  if negb (returncode cm =? 0) then
                    if str_in "nothing to commit" (stdout cm)
                    then Return true
                    else Return false
                  else
                    match run h ["git"; "push"] with
                    | Raise e => Raise e
                    | Return ps =>
                        if returncode ps =? 0 then Return true
                        else Return false
                    end
              end
        end
  end.

(** [commit_and_push()]: [except Exception: return False]. *)
Definition commit_and_push (h : host) : bool :=
  match commit_and_push_try h with
  | Return b => b
  | Raise _ => false
  end.

Definition target_currencies : list string :=
  [ "US Dollar"; "Euro"; "GB Pound"; "Japanese Yen"; "Swiss Franc";
    "Canadian Dollar"; "Brazilian Real"; "Australian Dollar";
    "Singapore Dollar"; "Chinese Yuan" ].

(** [main()]: the files after the run and, when a push was attempted,
    its outcome; an exception of the extraction is not caught. *)
Definition main (w : world) (h : host) (fs : gmap string file)
  : result (gmap string file * option bool) :=
  match extract_exchange_rates w target_currencies with
  | Raise e => Raise e
  | Return extracted_data =>
      let stats := Stats (Some (elapsed h)) (Some target_currencies)
                         (Some (started h)) in
      match extracted_data with
      | Some d =>
          if dict_truthy d then
            let '(csv_saved, fs) := save_to_csv h d "latest_rates.csv" fs in
            let '(json_saved, fs) :=
              save_to_json h d "latest_rates.json" fs in
            let '(historical_saved, fs) :=
              save_to_csv h d (today h +:+ "_rates.csv") fs in
            let '(metadata_saved, fs) :=
              save_metadata h extracted_data stats fs in
            if is_Some_bool csv_saved && is_Some_bool json_saved
            then Return (fs, Some (commit_and_push h))
            else Return (fs, None)
          else Return ((save_metadata h None stats fs).2, None)
      | None => Return ((save_metadata h None stats fs).2, None)
      end
  end.

End Extractor.

(** ** The driver installer: [scripts/install_chrome.py] *)

Module Installer.
Import Py.

Definition CHROME_FOR_TESTING_API : string :=
  "https://googlechromelabs.github.io/chrome-for-testing/known-good-versions-with-downloads.json".
Definition LEGACY_API : string :=
  "https://chromedriver.storage.googleapis.com/LATEST_RELEASE".

Definition PLATFORM_MAPPING : gmap string (gmap string string) :=
  list_to_map
    [ ("linux", list_to_map [ ("x86_64", "linux64"); ("amd64", "linux64");
                              ("i386", "linux32"); ("i686", "linux32") ]);
      ("darwin", list_to_map [ ("x86_64", "mac-x64");
                               ("arm64", "mac-arm64") ]);
      ("windows", list_to_map [ ("amd64", "win64"); ("x86_64", "win64");
                                ("i386", "win32") ]) ].

Definition REQUIRED_PACKAGES : list string :=
  [ "selenium>=4.15.0"; "webdriver-manager>=4.0.0"; "requests>=2.25.0";
    "beautifulsoup4>=4.9.0" ].

(** *** The version manifest, as the script reads it

    A key that is absent reads as the default of its [.get]: [''] for
    [version], an empty list for [versions] and [chromedriver], [None]
    for [platform] and [url]. A manifest of another shape makes the
    script raise inside its [try]: it is an outcome [Raise] of
    [json]. *)
Record download := Download {
  platform : option string;
  url : option string
}.

Record version_info := VersionInfo {
  version : string;
  chromedriver : list download
}.

Record manifest := Manifest { versions : list version_info }.

(** The response of [requests.get]. *)
Record response := Response {
  raise_for_status : result unit;
  json : result manifest;
  body_text : string
}.

(** *** The world of the installer *)

(** The calls the installer makes to the outside, in the order it makes
    them. *)
Inductive call : Type :=
  | CallRun (argv : list string)          (* subprocess.run *)
  | CallGet (u : string)                  (* requests.get *)
  | CallDownload (u v : string)           (* download_and_extract *)
  | CallInstallToSystem (path : string)   (* install_to_system *)
  | CallVerify.                           (* verify_installation *)

Definition is_network (c : call) : bool :=
  match c with
  | CallGet _ | CallDownload _ _ => true
  | _ => false
  end.

(** The outcome of a call can depend on the calls made before it.
    [download_and_extract], [install_to_system] and
    [verify_installation] only act on the network, the file system and
    the browser: the world gives their outcomes. The standard output is
    the stream of the whole run: either it encodes the pictographs of
    the progress messages or it does not. *)
Record world := World {
  system : string;        (* platform.system().lower() *)
  machine : string;       (* platform.machine().lower() *)
  executable : string;    (* sys.executable *)
  run : list call -> list string -> result completed;
  requests_get : list call -> string -> result response;
  download_and_extract : list call -> string -> string -> result string;
  install_to_system : list call -> string -> result bool;
  verify_installation : list call -> bool;
  verbose : bool;         (* self.verbose *)
  stdout_unicode : bool   (* sys.stdout encodes every character *)
}.

(** A computation reads the calls made so far and extends them. *)
Definition M (A : Type) : Type := list call -> result A * list call.

Definition ret {A} (a : A) : M A := fun t => (Return a, t).
Definition raise {A} (e : exn) : M A := fun t => (Raise e, t).
Definition bind {A B} (m : M A) (f : A -> M B) : M B :=
  fun t =>
    match m t with
    | (Return a, t') => f a t'
    | (Raise e, t') => (Raise e, t')
    end.

(** [try: m except <the classes of handles>: h] *)
Definition catch {A} (m : M A) (handles : exn -> bool) (h : M A) : M A :=
  fun t =>
    match m t with
    | (Raise e, t') => if handles e then h t' else (Raise e, t')
    | r => r
    end.

Global Instance M_ret : MRet M := @ret.
Global Instance M_bind : MBind M := fun A B f m => bind m f.

Definition any_exception (_ : exn) : bool := true.

Section WithWorld.
Variable w : world.

(** The [UnicodeEncodeError] of a [print], a [ValueError]. *)
Definition unicode_encode_error : exn :=
  ValueError "'charmap' codec can't encode character".

(** The progress messages can be written: none is printed, or the
    standard output encodes their pictographs. *)
Definition can_print : bool := negb (verbose w) || stdout_unicode w.

(** [if self.verbose: print(...)] for a message that holds a
    pictograph: the messages of [get_chrome_version],
    [download_and_extract] and [install] that do. The other messages,
    of ASCII text around the texts that they quote, are taken to be
    printed without an exception. *)
Definition print_unicode : M unit :=
  if can_print then ret tt else raise unicode_encode_error.

Definition call_run (argv : list string) : M completed :=
  fun t => (run w t argv, t ++ [CallRun argv]).

(** [subprocess.run(argv, check=True, ...)] *)
Definition call_run_checked (argv : list string) : M completed :=
  r ← call_run argv;
  if returncode r =? 0 then ret r else raise CalledProcessError.

Definition call_get (u : string) : M response :=
  fun t => (requests_get w t u, t ++ [CallGet u]).

(** [download_and_extract] opens with the message of the download; the
    call is recorded once the message is out. *)
Definition call_download (u v : string) : M string :=
  bind print_unicode
    (fun _ t => (download_and_extract w t u v, t ++ [CallDownload u v])).

Definition call_install_to_system (path : string) : M bool :=
  fun t => (install_to_system w t path, t ++ [CallInstallToSystem path]).

Definition call_verify : M bool :=
  fun t => (Return (verify_installation w t), t ++ [CallVerify]).

Definition lift {A} (r : result A) : M A := fun t => (r, t).

(** *** [get_platform_identifier] *)
Definition get_platform_identifier : option string :=
  match PLATFORM_MAPPING !! system w with
  | None => None
  | Some platform_variants =>
      match platform_variants !! machine w with
      | Some tag => Some tag
      | None =>
          if String.eqb (system w) "linux" then
            Some (if str_in "64" (machine w) then "linux64"
                  else "linux32")
          else if String.eqb (system w) "darwin" then
            Some (if str_in "arm" (machine w) then "mac-arm64"
                  else "mac-x64")
          else if String.eqb (system w) "windows" then
            Some (if str_in "64" (machine w) then "win64" else "win32")
          else None
      end
  end.

(** *** [get_chrome_version] *)
Definition chrome_commands : gmap string (list (list string)) :=
  list_to_map
    [ ("linux", [ ["google-chrome"; "--version"];
                  ["chromium-browser"; "--version"];
                  ["chromium"; "--version"] ]);
      ("darwin",
        [ ["/Applications/Google Chrome.app/Contents/MacOS/Google Chrome";
           "--version"];
          ["/Applications/Chromium.app/Contents/MacOS/Chromium";
           "--version"] ]);
      ("windows", [ ["chrome.exe"; "--version"];
                    ["chromium.exe"; "--version"] ]) ].

(** [except (TimeoutExpired, FileNotFoundError, SubprocessError)] *)
Definition version_probe_handles (e : exn) : bool :=
  match e with
  | TimeoutExpired | FileNotFoundError | CalledProcessError => true
  | _ => false
  end.

(** The loop over the commands; [version_line.split()[-1]] raises an
    [IndexError], which no handler of the loop takes, when the output
    is blank, and the message that announces the version raises when it
    cannot be printed. *)
Fixpoint probe_chrome (commands : list (list string))
  : M (option string) :=
  match commands with
  | [] => ret None
  | cmd :: commands' =>
      found ← catch
        (r ← call_run cmd;
         if returncode r =? 0 then
           match last (split_ws (strip (stdout r))) with
           | Some v => _ ← print_unicode; ret (Some v)
           | None => raise IndexError
           end
         else ret None)
        version_probe_handles (ret None);
      match found with
      | Some v => ret (Some v)
      | None => probe_chrome commands'
      end
  end.

Definition get_chrome_version : M (option string) :=
  probe_chrome (default [] (chrome_commands !! system w)).

(** *** [get_compatible_chromedriver_version] *)

Definition platform_is (d : download) (platform_id : string) : bool :=
  match platform d with
  | Some p => String.eqb p platform_id
  | None => false
  end.

(** The loop over the downloads of one entry; the state is the pair of
    the variables [target_version] and [download_url]. *)
Fixpoint scan_downloads (platform_id v : string)
    (downloads : list download) (st : option string * option string)
  : option string * option string :=
  match downloads with
  | [] => st
  | d :: downloads' =>
      if platform_is d platform_id then (Some v, url d)
      else scan_downloads platform_id v downloads' st
  end.

(** The loop over [reversed(versions)]. *)
Fixpoint scan_versions (chrome_major platform_id : string)
    (vs : list version_info) (st : option string * option string)
  : option string * option string :=
  match vs with
  | [] => st
  | version_info :: vs' =>
      if startswith (version version_info) chrome_major then
        let st' := scan_downloads platform_id (version version_info)
                     (chromedriver version_info) st in
        if truthy_opt st'.1 then st'
        else scan_versions chrome_major platform_id vs' st'
      else scan_versions chrome_major platform_id vs' st
  end.

(** The values of [target_version] and [download_url] before the test
    [if target_version and download_url]. *)
Definition modern_choice (chrome_version : option string)
    (platform_id : string) (vs : list version_info)
  : option string * option string :=
  let st := (None, None) in
  let st :=
    match chrome_version with
    | Some cv =>
        if truthy cv then
          let chrome_major := hd "" (split "." cv) in
          scan_versions chrome_major platform_id (rev vs) st
        else st
    | None => st
    end in
  if negb (truthy_opt st.1) then
    match last vs with
    | Some latest_version =>
        scan_downloads platform_id (version latest_version)
          (chromedriver latest_version) st
    | None => st
    end
  else st.

(** The first [try]: the pair it returns, or [None] when the function
    goes on to the legacy endpoint. *)
Definition query_modern (chrome_version : option string)
    (platform_id : string) : M (option (string * string)) :=
  catch
    (response ← call_get CHROME_FOR_TESTING_API;
     _ ← lift (raise_for_status response);
     data ← lift (json response);
     match modern_choice chrome_version platform_id (versions data) with
     | (Some target_version, Some download_url) =>
         if truthy target_version && truthy download_url
         then ret (Some (target_version, download_url))
         else ret None
     | _ => ret None
     end)
    any_exception (ret None).

Definition legacy_url (v platform_id : string) : string :=
  "https://chromedriver.storage.googleapis.com/" +:+ v
  +:+ "/chromedriver_" +:+ platform_id +:+ ".zip".

(** The second [try]. *)
Definition query_legacy (platform_id : string) : M (string * string) :=
  catch
    (response ← call_get LEGACY_API;
     _ ← lift (raise_for_status response);
     let v := strip (body_text response) in
     ret (v, legacy_url v platform_id))
    any_exception
    (raise (RuntimeError "Unable to determine ChromeDriver version")).

Definition unsupported_platform : exn :=
  ValueError ("Unsupported platform: " +:+ system w +:+ " "
              +:+ machine w).

Definition get_compatible_chromedriver_version : M (string * string) :=
  chrome_version ← get_chrome_version;
  match get_platform_identifier with
  | None => raise unsupported_platform
  | Some platform_id =>
      if negb (truthy platform_id) then raise unsupported_platform
      else
        modern ← query_modern chrome_version platform_id;
        match modern with
        | Some found => ret found
        | None => query_legacy platform_id
        end
  end.

(** *** The installation methods *)

Definition package_commands : gmap string (list (list string)) :=
  list_to_map
    [ ("linux", [ ["sudo"; "apt-get"; "update"];
                  ["sudo"; "apt-get"; "install"; "-y";
                   "chromium-browser"; "chromium-chromedriver"] ]);
      ("darwin", [ ["brew"; "install"; "chromedriver"] ]) ].

(** [except (CalledProcessError, FileNotFoundError)] *)
Definition package_handles (e : exn) : bool :=
  match e with
  | CalledProcessError | FileNotFoundError => true
  | _ => false
  end.

Definition file_not_found (e : exn) : bool :=
  match e with FileNotFoundError => true | _ => false end.

Definition called_process_error (e : exn) : bool :=
  match e with CalledProcessError => true | _ => false end.

(** The loop over the commands: [false] when it left the function
    with [return False]. *)
Fixpoint run_package_commands (commands : list (list string))
  : M bool :=
  match commands with
  | [] => ret true
  | cmd :: commands' =>
      ok ← catch (_ ← call_run_checked cmd; ret true)
             package_handles (ret false);
      if ok : bool then run_package_commands commands' else ret false
  end.

Definition install_via_package_manager : M bool :=
  ok ← run_package_commands (default [] (package_commands !! system w));
  if ok : bool then
    catch (r ← call_run ["chromedriver"; "--version"];
           ret (returncode r =? 0))
      file_not_found (ret false)
  else ret false.

(** The loop of [install_python_dependencies]. *)
Fixpoint pip_install (packages : list string) (success : bool)
  : M bool :=
  match packages with
  | [] => ret success
  | package :: packages' =>
      ok ← catch
             (_ ← call_run_checked
                    [executable w; "-m"; "pip"; "install"; "--upgrade";
                     package];
              ret true)
             called_process_error (ret false);
      pip_install packages' (if ok : bool then success else false)
  end.

Definition install_python_dependencies : M bool :=
  pip_install REQUIRED_PACKAGES true.

Definition _install_manual : M bool :=
  catch
    ('(v, download_url) ← get_compatible_chromedriver_version;
     chromedriver_path ← call_download download_url v;
     call_install_to_system chromedriver_path)
    any_exception (ret false).

(** *** [install] *)

(** The loop over [installation_methods]: [true] leaves the function
    with [return True]. The [try] of an iteration opens with the message
    that announces the method and, after a verification, holds the
    message of the success. *)
Fixpoint try_methods (methods : list (string * M bool)) : M bool :=
  match methods with
  | [] => ret false
  | (method_name, method_func) :: methods' =>
      verified ← catch
                   (_ ← print_unicode;
                    ok ← method_func;
                    if ok : bool then
                      v ← call_verify;
                      if v : bool then _ ← print_unicode; ret true
                      else ret false
                    else ret false)
                   any_exception (ret false);
      if verified : bool then ret true else try_methods methods'
  end.

Definition installation_methods : list (string * M bool) :=
  [ ("Package Manager", install_via_package_manager);
    ("Manual Download", _install_manual) ].

Definition install : M bool :=
  _ ← install_python_dependencies;
  try_methods installation_methods.

End WithWorld.
End Installer.

(** ** The installer at work on the host *)

(** The functions of the installer that act on the file system and on the
    browser: [download_and_extract], [install_to_system],
    [verify_installation], and [main] with the temporary directory of the
    installer. Their messages are taken to be printed: the message that
    opens [download_and_extract], which may not be, is that of
    [Installer.call_download]. *)
Module Bodies.
Import Py.

(** What the functions do to the host, in the order they do it; an action
    is listed when it is attempted. *)
Inductive action : Type :=
  | Makedirs (path : string)          (* os.makedirs(path, exist_ok=True) *)
  | Copy (src dst : string)           (* shutil.copy2(src, dst) *)
  | Sudo (argv : list string)         (* subprocess.run(argv, check=True) *)
  | Chmod (path : string)             (* os.chmod(path, rwxr-xr-x) *)
  | Fetch (u : string)                (* requests.get(u) *)
  | WriteZip (path : string)          (* open(path, 'wb') and write *)
  | ExtractAll (zip dir : string)     (* ZipFile(zip).extractall(dir) *)
  | LaunchChrome                      (* webdriver.Chrome(options=...) *)
  | LaunchManaged                     (* the webdriver_manager fallback *)
  | OpenPage (u : string)             (* driver.get(u) *)
  | ReadTitle                         (* driver.title *)
  | QuitBrowser                       (* driver.quit() *)
  | Mkdtemp                           (* tempfile.mkdtemp(prefix=...) *)
  | Rmtree (path : string).           (* shutil.rmtree(path, ignore_errors=True) *)

(** A browser session of [verify_installation]. *)
Record session := Session {
  open_page : result unit;
  title : result string;
  quit : result unit
}.

(** The host: the outcome of each call, given by its arguments.
    [os.path.join], [os.path.expandvars] and [os.path.expanduser] are the
    functions of the host. *)
Record host := Host {
  system : string;
  temp_dir : string;                       (* self.temp_dir *)
  join : string -> string -> string;       (* os.path.join *)
  program_files : string;  (* expandvars(r'%PROGRAMFILES%\ChromeDriver') *)
  user_bin : string;       (* expanduser("~/.local/bin") *)
  path_exists : string -> bool;            (* os.path.exists *)
  makedirs : string -> result unit;
  copy2 : string -> string -> result unit;
  sudo : list string -> result completed;
  chmod : string -> result unit;
  fetch : string -> result unit;  (* requests.get and raise_for_status *)
  write_zip : string -> result unit;
  (* extractall, then the directories of os.walk with their files *)
  extract_all : string -> string -> result (list (string * list string));
  selenium_import : result unit;
  launch_chrome : result session;
  launch_managed : result session
}.

(** A computation gives an outcome and the actions it attempted. *)
Definition W (A : Type) : Type := result A * list action.

Definition w_ret {A} (a : A) : W A := (Return a, []).
Definition w_raise {A} (e : exn) : W A := (Raise e, []).
Definition w_bind {A B} (m : W A) (f : A -> W B) : W B :=
  match m with
  | (Return a, l) => let '(r, l') := f a in (r, l ++ l')
  | (Raise e, l) => (Raise e, l)
  end.

(** [try: m except <the classes of handles>: h] *)
Definition w_catch {A} (m : W A) (handles : exn -> bool) (h : W A) : W A :=
  match m with
  | (Raise e, l) =>
      if handles e then let '(r, l') := h in (r, l ++ l') else (Raise e, l)
  | r => r
  end.

(** One action and its outcome. *)
Definition perform {A} (a : action) (r : result A) : W A := (r, [a]).

Global Instance W_ret : MRet W := @w_ret.
Global Instance W_bind : MBind W := fun A B f m => w_bind m f.

Definition every_exception (_ : exn) : bool := true.

(** [OSError] and its subclasses. *)
Definition os_error (e : exn) : bool :=
  match e with
  | FileNotFoundError | PermissionError => true
  | _ => false
  end.

(** [except (subprocess.CalledProcessError, PermissionError, OSError)] *)
Definition location_handles (e : exn) : bool :=
  match e with
  | CalledProcessError => true
  | _ => os_error e
  end.

Section OnHost.
Variable h : host.

Definition is_windows : bool := String.eqb (system h) "windows".

(** ["chromedriver.exe" if self.system == "windows" else "chromedriver"] *)
Definition executable_name : string :=
  if is_windows then "chromedriver.exe" else "chromedriver".

(** [self.system in ["linux", "darwin"]] *)
Definition is_unix : bool :=
  String.eqb (system h) "linux" || String.eqb (system h) "darwin".

(** [subprocess.run(argv, check=True)] *)
Definition sudo_checked (argv : list string) : W unit :=
  r ← perform (Sudo argv) (sudo h argv);
  if returncode r =? 0 then w_ret tt else w_raise CalledProcessError.

(** *** [download_and_extract] *)

(** The loop over [os.walk(extract_dir)]. *)
Fixpoint find_executable (walk : list (string * list string))
  : W string :=
  match walk with
  | [] => w_raise FileNotFoundError
  | (root, files) :: walk' =>
      if existsb (String.eqb executable_name) files then
        let chromedriver_path := join h root executable_name in
        _ ← (if is_unix
             then perform (Chmod chromedriver_path) (chmod h chromedriver_path)
             else w_ret tt);
        w_ret chromedriver_path
      else find_executable walk'
  end.

Definition download_and_extract (download_url v : string) : W string :=
  _ ← perform (Fetch download_url) (fetch h download_url);
  let zip_path := join h (temp_dir h) "chromedriver.zip" in
  _ ← perform (WriteZip zip_path) (write_zip h zip_path);
  let extract_dir := join h (temp_dir h) "extracted" in
  _ ← perform (Makedirs extract_dir) (makedirs h extract_dir);
  walk ← perform (ExtractAll zip_path extract_dir)
           (extract_all h zip_path extract_dir);
  find_executable walk.

(** *** [install_to_system] *)

Definition target_locations : gmap string (list string) :=
  list_to_map
    [ ("linux", ["/usr/local/bin"; "/usr/bin"]);
      ("darwin", ["/usr/local/bin"; "/opt/homebrew/bin"]);
      ("windows", [program_files h]) ].

(** The body of the [try] for one location: [true] stands for
    [return True], [false] for [continue]. *)
Definition install_at (chromedriver_path location : string) : W bool :=
  present ←
    (if negb (path_exists h location) then
       if is_windows then
         _ ← perform (Makedirs location) (makedirs h location); w_ret true
       else w_ret false
     else w_ret true);
  if present : bool then
    let target_path := join h location executable_name in
    _ ← (if is_windows then
           perform (Copy chromedriver_path target_path)
                   (copy2 h chromedriver_path target_path)
         else
           _ ← sudo_checked ["sudo"; "cp"; chromedriver_path; target_path];
           sudo_checked ["sudo"; "chmod"; "+x"; target_path]);
    w_ret true
  else w_ret false.

(** The loop over the locations. *)
Fixpoint try_locations (chromedriver_path : string)
    (locations : list string) : W bool :=
  match locations with
  | [] => w_ret false
  | location :: locations' =>
      installed ← w_catch (install_at chromedriver_path location)
                    location_handles (w_ret false);
      if installed : bool then w_ret true
      else try_locations chromedriver_path locations'
  end.

(** The second [try]: the directory of the user. *)
Definition install_for_user (chromedriver_path : string) : W bool :=
  w_catch
    (_ ← perform (Makedirs (user_bin h)) (makedirs h (user_bin h));
     let target_path := join h (user_bin h) executable_name in
     _ ← perform (Copy chromedriver_path target_path)
           (copy2 h chromedriver_path target_path);
     _ ← (if negb is_windows
          then perform (Chmod target_path) (chmod h target_path)
          else w_ret tt);
     w_ret true)
    every_exception (w_ret false).

Definition install_to_system (chromedriver_path : string) : W bool :=
  installed ← try_locations chromedriver_path
                (default [] (target_locations !! system h));
  if installed : bool then w_ret true
  else install_for_user chromedriver_path.

(** *** [verify_installation] *)

(** The two ways to start the browser: [None] when both raise. *)
Definition start_browser : W (option session) :=
  w_catch
    (d ← perform LaunchChrome (launch_chrome h); w_ret (Some d))
    every_exception
    (w_catch
       (d ← perform LaunchManaged (launch_managed h); w_ret (Some d))
       every_exception (w_ret None)).

Definition verify_installation : W bool :=
  w_catch
    (_ ← (selenium_import h, []);
     driver ← start_browser;
     match driver with
     | None => w_ret false
     | Some d =>
         _ ← perform (OpenPage "https://www.google.com") (open_page d);
         _ ← perform ReadTitle (title d);
         _ ← perform QuitBrowser (quit d);
         w_ret true
     end)
    every_exception (w_ret false).

(** *** [main] and the temporary directory *)

(** [main()] around an [install] whose outcome is given: the constructor
    makes the temporary directory, [__exit__] removes it when it exists,
    and the exit status is 0 for a success and 1 otherwise. After a
    failure the status is 1 whether the advice that [main] prints, which
    holds a pictograph, can be printed or raises. *)
Definition main (mkdtemp : result string) (install : result bool)
    (tmp_exists : string -> bool) : Z * list action :=
  match mkdtemp with
  | Raise _ => (1, [Mkdtemp])
  | Return tmp =>
      let cleanup := if tmp_exists tmp then [Rmtree tmp] else [] in
      match install with
      | Return true => (0, Mkdtemp :: cleanup)
      | Return false => (1, Mkdtemp :: cleanup)
      | Raise _ => (1, Mkdtemp :: cleanup)
      end
  end.

End OnHost.
End Bodies.

(** Statements about these functions, and hosts for the examples. *)
Module BodiesSpec.
Import Py Bodies.

(** The session that [verify_installation] works with, if any: the
    imports succeed and one of the two ways starts a browser. *)
Definition started (h : host) : option session :=
  match selenium_import h with
  | Raise _ => None
  | Return _ =>
      match launch_chrome h with
      | Return d => Some d
      | Raise _ =>
          match launch_managed h with
          | Return d => Some d
          | Raise _ => None
          end
      end
  end.

(** The test page loads and its title can be read. *)
Definition page_read (d : session) : bool :=
  is_return (open_page d) && is_return (title d).

Definition is_sudo (a : action) : bool :=
  match a with Sudo _ => true | _ => false end.

Definition is_chmod (a : action) : bool :=
  match a with Chmod _ => true | _ => false end.

(** A host for the examples: paths are joined with a slash, the system
    directories are as given, every call succeeds unless said
    otherwise. *)
Definition example_host (sys : string) (present : string -> bool)
    (walk : list (string * list string)) (root : result completed)
    (browser : result session) : host :=
  Host sys "/tmp/chromedriver_install_x"
       (fun a b => a +:+ "/" +:+ b)
       "C:/Program Files/ChromeDriver" "/home/user/.local/bin"
       present (fun _ => Return tt) (fun _ _ => Return tt)
       (fun _ => root) (fun _ => Return tt) (fun _ => Return tt)
       (fun _ => Return tt) (fun _ _ => Return walk)
       (Return tt) browser (Raise ImportError).

End BodiesSpec.

(** ** Statements of the specification, in its own words *)

Module Spec.
Import Py Extractor.

(** A text with every space and every comma removed. *)
Fixpoint without_spaces_and_commas (s : string) : string :=
  match s with
  | EmptyString => EmptyString
  | String c s' =>
      if Ascii.eqb c " " || Ascii.eqb c ","
      then without_spaces_and_commas s'
      else String c (without_spaces_and_commas s')
  end.

(** The text, cleaned, parses as a float in the range of the two
    literals [0.0000001] and [100.0], bounds included. *)
Definition accepted_rate (text : string) : Prop :=
  ∃ rate : spec_float,
    float (without_spaces_and_commas text) = Some rate ∧
    float_le rate_min rate = true ∧ float_le rate rate_max = true.

(** The pair a row contributes to the mapping, if it contributes. *)
Definition row_yield (targets : list string) (r : row)
  : option (string * string) :=
  match find_cells r with
  | Return cells =>
      if (2 <=? length cells)%nat then
        match all_texts_of cells with
        | Return all_texts => row_entry targets all_texts
        | Raise _ => None
        end
      else None
  | Raise _ => None
  end.

(** An exception is raised while the row is parsed. *)
Definition row_raises (r : row) : bool :=
  match find_cells r with
  | Raise _ => true
  | Return cells =>
      (2 <=? length cells)%nat && negb (is_return (all_texts_of cells))
  end.

Definition fragment_in (text target : string) : bool :=
  str_in (lower target) (lower text).

(** The reading that scans the fragments first: the first fragment, in
    the order of the caller, that occurs in some cell decides, and the
    currency is the first cell holding that fragment. *)
Definition fragment_first_currency (targets all_texts : list string)
  : option string :=
  match List.find (fun target => existsb (fun text => fragment_in text target)
                                   all_texts) targets with
  | Some target => List.find (fun text => fragment_in text target) all_texts
  | None => None
  end.

(** What the code does: a cell matches when it is not empty and holds
    some fragment. *)
Definition cell_matches (targets : list string) (text : string) : bool :=
  truthy text && existsb (fragment_in text) targets.

(** A row of cells whose texts are read without an exception. *)
Definition plain_row (texts : list string) : row :=
  Row (Return (map (fun s => Cell (Return s)) texts)).

(** A [git] whose [commit] ends with status 1 and the given output;
    the other commands succeed. *)
Definition git_reporting (commit_stdout : string) (argv : list string)
  : result completed :=
  if String.eqb (nth 1 argv "") "commit"
  then Return (Completed 1 commit_stdout "")
  else Return (Completed 0 "" "").



(** A host whose clock is stopped and whose files can be written. *)
Definition example_host (git : list string -> result completed) : host :=
  Host "2025-01-01T08:00:00+00:00" "2025-01-01 12:00:00" "2025-01-01"
       (S754_zero false) (S754_zero false)
       (Return tt) (fun _ => Return tt) git.

(** The message of the commit. *)
Definition commit_message (h : host) : string :=
  "Update CBUAE rates - " +:+ now_local h.

(** The rows of a file stand for the entries of the mapping, one row for
    each entry, and carry the float of their rate. *)
Definition rows_of (h : host) (data : gmap string string)
    (rows : list rate_record) : Prop :=
  length rows = size data ∧
  (∀ k v, data !! k = Some v ↔
          ∃ row, In row rows ∧ currency row = k ∧ rate row = v) ∧
  Forall (fun row => float (rate row) = Some (rate_float row) ∧
                     extraction_timestamp row = now_utc h ∧
                     extraction_method row = "selenium_simple") rows.

(** A world whose browser shows a table of the given rows and closes
    without an exception. *)
Definition page_world (rows : list row) : world :=
  World true
        (Return (Driver (Return tt) (Raise TimeoutExpired)
                        (Return (Table (Return rows))) (Return tt)))
        (Raise ImportError).

(** A world in which no browser can be launched. *)
Definition no_browser : world :=
  World true (Raise (WebDriverException "chrome not found"))
        (Raise (WebDriverException "no driver")).

End Spec.

(** ** Statements about the installer, in the words of the specification *)

Module InstallerSpec.
Import Py Installer.

(** The pair of operating system and architecture is a line of the
    fixed table. *)
Definition in_mapping (sys mach : string) : bool :=
  match PLATFORM_MAPPING !! sys with
  | Some platform_variants => is_Some_bool (platform_variants !! mach)
  | None => false
  end.

(** The operating system is one of those of the fixed table. *)
Definition listed_system (sys : string) : bool :=
  is_Some_bool (PLATFORM_MAPPING !! sys).

(** The tag of a listed operating system for an architecture that the
    table does not list, chosen by the name of the architecture. *)
Definition fallback_tag (sys mach : string) : string :=
  if String.eqb sys "linux" then
    if str_in "64" mach then "linux64" else "linux32"
  else if String.eqb sys "darwin" then
    if str_in "arm" mach then "mac-arm64" else "mac-x64"
  else
    if str_in "64" mach then "win64" else "win32".


(** The major version of a version: the text before its first dot. *)
Definition major_version (v : string) : string := hd "" (split "." v).




(** On the entries of a manifest, the versions that start with the text
    of the major version of the browser are those, not empty, whose
    major version is that of the browser. Nothing is asked when no
    browser is detected. *)
Definition prefix_is_major (chrome_version : option string)
    (vs : list version_info) : bool :=
  match chrome_version with
  | Some cv =>
      forallb (fun vi =>
                 Bool.eqb (startswith (version vi) (major_version cv)
                           && truthy (version vi))
                          (String.eqb (major_version (version vi))
                                      (major_version cv))) vs
  | None => true
  end.







(** One method followed by the verification: [true] when the method
    returns [True] and the verification succeeds; a method that returns
    [False] or raises is not verified. *)
Definition attempt (w : world) (method : M bool) (t : list call)
  : bool * list call :=
  match method t with
  | (Return true, t') => (verify_installation w t', t' ++ [CallVerify])
  | (_, t') => (false, t')
  end.

(** The two attempts in their order. *)
Definition first_verified (w : world) (t : list call)
  : result bool * list call :=
  let '(ok1, t1) := attempt w (install_via_package_manager w) t in
  if ok1 then (Return true, t1)
  else
    let '(ok2, t2) := attempt w (_install_manual w) t1 in
    (Return ok2, t2).

(** The command that installs one Python package. *)
Definition pip_argv (w : world) (package : string) : list string :=
  [executable w; "-m"; "pip"; "install"; "--upgrade"; package].

(** Each command of the list, run in turn after the calls [t], ends with
    status zero. *)
Fixpoint all_succeed (w : world) (t : list call) (argvs : list (list string))
  : bool :=
  match argvs with
  | [] => true
  | argv :: argvs' =>
      match run w t argv with
      | Return r => returncode r =? 0
      | Raise _ => false
      end && all_succeed w (t ++ [CallRun argv]) argvs'
  end.

(** The detection passes over a command that ends with a status other
    than zero, or that cannot be run: it is absent, it takes too long,
    or the launch fails with an error of [subprocess]. *)
Definition passed_over (w : world) (t : list call) (cmd : list string)
  : bool :=
  match run w t cmd with
  | Return res => negb (returncode res =? 0)
  | Raise TimeoutExpired | Raise FileNotFoundError
  | Raise CalledProcessError => true
  | Raise _ => false
  end.

Fixpoint all_passed_over (w : world) (t : list call)
    (cmds : list (list string)) : bool :=
  match cmds with
  | [] => true
  | cmd :: cmds' =>
      passed_over w t cmd && all_passed_over w (t ++ [CallRun cmd]) cmds'
  end.

(** How the detection ends after the commands [tried]: with [None] when
    all were passed over; otherwise at the last of them, the first that
    is not passed over, and a version that is returned is the last word
    of the output of that command, which ended with status zero. *)
Definition detection_stops (w : world) (t : list call)
    (tried : list (list string)) (r : result (option string)) : Prop :=
  match r with
  | Return None => all_passed_over w t tried = true
  | _ =>
      ∃ pre cmd,
        tried = pre ++ [cmd] ∧
        all_passed_over w t pre = true ∧
        passed_over w (t ++ map CallRun pre) cmd = false ∧
        ∀ v, r = Return (Some v) →
          ∃ res, run w (t ++ map CallRun pre) cmd = Return res ∧
                 returncode res = 0 ∧
                 last (split_ws (strip (stdout res))) = Some v
  end.

(** Of the commands [argvs] run in turn after the calls [t], one did not
    end with status zero: those before it did, and none after it was
    run, so that the calls end with it. *)
Definition stops_at_failure (w : world) (t : list call)
    (argvs : list (list string)) (t' : list call) : Prop :=
  ∃ pre cmd rest,
    argvs = pre ++ cmd :: rest ∧
    all_succeed w t pre = true ∧
    all_succeed w (t ++ map CallRun pre) [cmd] = false ∧
    t' = t ++ map CallRun (pre ++ [cmd]).

(** The command that asks the installed driver for its version. *)
Definition chromedriver_version : list string := ["chromedriver"; "--version"].

(** The manifest offers the version [v] with the address [u] for the
    platform: one of its entries has this version and a download for the
    platform at this address. *)
Definition offered (vs : list version_info) (platform_id v u : string)
  : Prop :=
  ∃ vi dl, In vi vs ∧ version vi = v ∧ In dl (chromedriver vi) ∧
           platform dl = Some platform_id ∧ url dl = Some u.

(** What the two variables can hold: nothing yet, or the version of an
    entry of the manifest with the address of one of its downloads for
    the platform. *)
Definition from_manifest (vs : list version_info) (platform_id : string)
    (st : option string * option string) : Prop :=
  st = (None, None) ∨
  ∃ vi dl, In vi vs ∧ In dl (chromedriver vi) ∧
           platform dl = Some platform_id ∧
           st = (Some (version vi), url dl).

(** The six platform tags, each with its operating system. *)
Definition platform_tags : list (string * string) :=
  [ ("linux", "linux64"); ("linux", "linux32");
    ("darwin", "mac-x64"); ("darwin", "mac-arm64");
    ("windows", "win64"); ("windows", "win32") ].

(** A world for the examples: no browser answers, the package manager
    is absent, the network answers as given. *)
Definition example_world (sys mach : string)
    (get : list call -> string -> result response)
    (verify : list call -> bool) : world :=
  World sys mach "python3"
        (fun _ argv =>
           if String.eqb (nth 1 argv "") "-m"
           then Return (Completed 0 "" "")
           else Raise FileNotFoundError)
        get
        (fun _ _ _ => Return "/tmp/extracted/chromedriver")
        (fun _ _ => Return true)
        verify true true.

Definition example_manifest : manifest :=
  Manifest
    [ VersionInfo "119.0.6045.105"
        [ Download (Some "linux64") (Some "https://example.org/119/linux64.zip") ];
      VersionInfo "120.0.6099.71"
        [ Download (Some "mac-x64") (Some "https://example.org/120a/mac.zip");
          Download (Some "linux64") (Some "https://example.org/120a/linux64.zip") ];
      VersionInfo "120.0.6099.109"
        [ Download (Some "mac-x64") (Some "https://example.org/120b/mac.zip") ];
      VersionInfo "121.0.6167.85"
        [ Download (Some "linux64") (Some "https://example.org/121/linux64.zip") ] ].

Definition manifest_server (_ : list call) (u : string) : result response :=
  if String.eqb u CHROME_FOR_TESTING_API
  then Return (Response (Return tt) (Return example_manifest) "")
  else Return (Response (Return tt) (Raise (ValueError "not JSON")) "114.0.5735.90 ").

(** The same world with a browser of version 120 installed. *)
Definition with_chrome_120 (w : world) : world :=
  World (system w) (machine w) (executable w)
        (fun t argv =>
           if String.eqb (nth 0 argv "") "google-chrome"
           then Return (Completed 0 "Google Chrome 120.0.6099.109 " "")
           else run w t argv)
        (requests_get w) (download_and_extract w) (install_to_system w)
        (verify_installation w) (verbose w) (stdout_unicode w).

(** The same world with a standard output that encodes ASCII only, the
    installer being verbose as [main] makes it. *)
Definition with_ascii_stdout (w : world) : world :=
  World (system w) (machine w) (executable w) (run w)
        (requests_get w) (download_and_extract w) (install_to_system w)
        (verify_installation w) true false.

(** A world in which every command ends with status zero: the package
    manager installs a driver. *)
Definition package_manager_world : world :=
  World "linux" "x86_64" "python3"
        (fun _ _ => Return (Completed 0 "ChromeDriver 120.0.6099.109" ""))
        manifest_server
        (fun _ _ _ => Return "/tmp/extracted/chromedriver")
        (fun _ _ => Return true)
        (fun _ => true) true true.




(** A network on which the manifest cannot be fetched. *)
Definition legacy_only (_ : list call) (u : string) : result response :=
  if String.eqb u CHROME_FOR_TESTING_API
  then Raise (RequestException "404")
  else Return (Response (Return tt) (Raise (ValueError "not JSON"))
                        "114.0.5735.90 ").

End InstallerSpec.

(** ** Properties of the rate extractor *)

Section ExtractorProperties.
Import Py Extractor Spec.

(** *** [is_valid_rate] *)

Lemma replace_space_comma (s : string) :
  replace "," "" (replace " " "" s) = without_spaces_and_commas s.
Proof.
  induction s as [|c s IH]; simpl; [reflexivity|].
  destruct (Ascii.eqb c " ") eqn:Hsp; simpl.
  - exact IH.
  - destruct (Ascii.eqb c ","); simpl; [exact IH | now rewrite IH].
Qed.

(** C3. [is_valid_rate] is true exactly for the texts that, with their
    spaces and commas removed, parse as a float between [0.0000001] and
    [100.0], bounds included; any other text is rejected. *)
Theorem is_valid_rate_accepts_exactly (text : string) :
  (is_valid_rate text = true ↔ accepted_rate text) ∧
  (is_valid_rate text = false ↔ ¬ accepted_rate text).
Proof.
  assert (Hiff : is_valid_rate text = true ↔ accepted_rate text).
  { unfold is_valid_rate, accepted_rate.
    rewrite replace_space_comma.
    destruct (float (without_spaces_and_commas text)) as [rate|].
    - rewrite andb_true_iff. split.
      + intros [Hlo Hhi]. exists rate. auto.
      + intros (rate' & Heq & Hlo & Hhi). inversion Heq; subst. auto.
    - split; [discriminate|]. intros (rate' & Heq & _). discriminate. }
  split; [exact Hiff|].
  rewrite <- Hiff. destruct (is_valid_rate text); split; intros H;
    try reflexivity; try discriminate; try congruence.
Qed.

(** The lower bound is the binary64 number nearest to [10^-7], and it
    lies below [10^-7]: [7555786372591432 / 2^76 < 1 / 10^7]. *)
Lemma rate_min_value :
  rate_min = S754_finite false 7555786372591432 (-76) ∧
  7555786372591432 * 10 ^ 7 < 2 ^ 76.
Proof. split; [vm_compute; reflexivity | vm_compute; reflexivity]. Qed.

Lemma rate_max_value :
  rate_max = S754_finite false 7036874417766400 (-46) ∧
  7036874417766400 = 100 * 2 ^ 46.
Proof. split; vm_compute; reflexivity. Qed.

(** The floats that are not numbers in the range are rejected: a NaN,
    the infinities, zero and the negative numbers. *)
Lemma out_of_range_floats (rate : spec_float) :
  float_le rate_min rate && float_le rate rate_max = true →
  ∃ m e, rate = S754_finite false m e.
Proof.
  rewrite andb_true_iff, (proj1 rate_min_value), (proj1 rate_max_value).
  intros [Hlo Hhi].
  destruct rate as [[]|[]| |[] m e]; [..| now eauto];
    cbv [float_le SFleb SFcompare] in Hlo, Hhi;
    first [discriminate Hlo | discriminate Hhi].
Qed.

Example valid_rate_examples :
  is_valid_rate "3.6725" = true ∧ is_valid_rate "0.0000001" = true ∧
  is_valid_rate "100" = true ∧ is_valid_rate " 1 0,0.0 " = true ∧
  is_valid_rate "100.00000000000001" = false ∧
  is_valid_rate "0.0000000999999999" = false ∧
  is_valid_rate "1,000" = false ∧ is_valid_rate "-1" = false ∧
  is_valid_rate "nan" = false ∧ is_valid_rate "inf" = false ∧
  is_valid_rate "US Dollar" = false ∧ is_valid_rate "" = false.
Proof. vm_compute. repeat split. Qed.

(** *** The scan of the rows *)

Lemma process_row_yield targets found r :
  process_row targets found r =
  match row_yield targets r with
  | Some (k, v) => <[k := v]> found
  | None => found
  end.
Proof.
  unfold process_row, row_body, row_yield.
  destruct (find_cells r) as [cells|e]; [|reflexivity].
  destruct (2 <=? length cells)%nat; [|reflexivity].
  destruct (all_texts_of cells) as [all_texts|e]; [|reflexivity].
  destruct (row_entry targets all_texts) as [[k v]|]; reflexivity.
Qed.

Lemma scan_rows_app targets found rows1 rows2 :
  scan_rows targets found (rows1 ++ rows2) =
  scan_rows targets (scan_rows targets found rows1) rows2.
Proof.
  revert found. induction rows1 as [|r rows1 IH]; intros found; simpl.
  - reflexivity.
  - apply IH.
Qed.


(** C9. A row with fewer than two cells records nothing, whatever its
    cell holds. *)
Theorem short_row_records_nothing targets found r cells :
  find_cells r = Return cells →
  (length cells < 2)%nat →
  process_row targets found r = found ∧
  row_yield targets r = None.
Proof.
  intros Hcells Hlen.
  unfold process_row, row_body, row_yield. rewrite Hcells.
  destruct (Nat.leb_spec 2 (length cells)) as [Hge|_]; [lia|].
  split; reflexivity.
Qed.

(** The cell ["3.67"] holds the fragment ["3."] and is a valid rate: on
    its own it records nothing, next to a second cell it does. *)
Lemma short_row_records_nothing_witness :
  row_entry ["3."] ["3.67"] = Some ("3.67", "3.67") ∧
  row_yield ["3."] (plain_row ["3.67"; ""]) = Some ("3.67", "3.67") ∧
  process_row ["3."] ∅ (plain_row ["3.67"]) = ∅ ∧
  row_yield ["3."] (plain_row ["3.67"]) = None.
Proof.
  split; [vm_compute; reflexivity|].
  split; [vm_compute; reflexivity|].
  apply (short_row_records_nothing ["3."] ∅ (plain_row ["3.67"])
           [Cell (Return "3.67")]).
  - reflexivity.
  - simpl. lia.
Defined.




(** *** The currency of a row *)

Lemma scan_targets_existsb text targets currency_found :
  scan_targets text targets currency_found =
  if existsb (fragment_in text) targets then Some text
  else currency_found.
Proof.
  induction targets as [|target targets IH]; simpl; [reflexivity|].
  unfold fragment_in at 1.
  destruct (str_in (lower target) (lower text)); simpl; [reflexivity|].
  exact IH.
Qed.

Lemma scan_cells_first_cell targets all_texts :
  ∀ currency_found, truthy_opt currency_found = false →
  match List.find (cell_matches targets) all_texts with
  | Some text => scan_cells all_texts targets currency_found = Some text
  | None => truthy_opt (scan_cells all_texts targets currency_found) = false
  end.
Proof.
  induction all_texts as [|text all_texts IH]; intros cf Hcf; simpl.
  - exact Hcf.
  - rewrite scan_targets_existsb. unfold cell_matches at 1.
    destruct (existsb (fragment_in text) targets) eqn:Hex; simpl.
    + destruct (truthy text) eqn:Ht; simpl; [reflexivity|].
      apply IH. simpl. exact Ht.
    + rewrite andb_false_r, Hcf. apply IH. exact Hcf.
Qed.

(** The scan depends on the fragments through their set only. *)
Lemma scan_cells_same_fragments targets targets' all_texts :
  (∀ t, t ∈ targets ↔ t ∈ targets') →
  ∀ currency_found,
    scan_cells all_texts targets currency_found =
    scan_cells all_texts targets' currency_found.
Proof.
  intros Hsame.
  assert (Hex : ∀ text, existsb (fragment_in text) targets =
                        existsb (fragment_in text) targets').
  { intros text. apply eq_true_iff_eq. rewrite !existsb_exists.
    split; intros (t & Hin & Ht); exists t; split; try exact Ht;
      apply list_elem_of_In; apply list_elem_of_In in Hin;
      now apply Hsame. }
  induction all_texts as [|text all_texts IH]; intros cf; simpl.
  - reflexivity.
  - rewrite !scan_targets_existsb, Hex.
    destruct (truthy_opt _); [reflexivity|]. apply IH.
Qed.

(** C2, as stated, fails: the fragment ["Euro"] comes first in the list
    of the caller and occurs in the second cell, but the row is matched
    by its first cell, which holds the later fragment. *)
Lemma fragment_order_counterexample :
  let targets := ["Euro"; "US Dollar"] in
  let all_texts := ["US Dollar"; "Euro"; "3.67"] in
  fragment_first_currency targets all_texts = Some "Euro" ∧
  find_currency targets all_texts = Some "US Dollar" ∧
  find_currency targets all_texts
    ≠ fragment_first_currency targets all_texts.
Proof.
  vm_compute. repeat split; try reflexivity. discriminate.
Qed.

(** C2, amended. The currency matched for a row is the text of the
    first cell, in cell order, that is not empty and holds, without
    regard to case, at least one of the fragments; the order of the
    fragments plays no part. *)
Theorem find_currency_first_matching_cell targets all_texts :
  match List.find (cell_matches targets) all_texts with
  | Some text => find_currency targets all_texts = Some text
  | None => truthy_opt (find_currency targets all_texts) = false
  end ∧
  ∀ targets', (∀ t, t ∈ targets ↔ t ∈ targets') →
    find_currency targets' all_texts = find_currency targets all_texts.
Proof.
  split.
  - apply scan_cells_first_cell. reflexivity.
  - intros targets' Hsame. unfold find_currency.
    symmetry. now apply scan_cells_same_fragments.
Qed.

Lemma find_currency_first_matching_cell_witness :
  find_currency ["US Dollar"; "Euro"] ["US Dollar"; "Euro"; "3.67"] =
  find_currency ["Euro"; "US Dollar"] ["US Dollar"; "Euro"; "3.67"].
Proof.
  apply (find_currency_first_matching_cell ["Euro"; "US Dollar"]
           ["US Dollar"; "Euro"; "3.67"]).
  intros t. rewrite !elem_of_cons. tauto.
Defined.

(** *** The failure policy of [extract_exchange_rates] *)

Lemma row_raises_skipped targets found r :
  row_raises r = true → process_row targets found r = found.
Proof.
  unfold row_raises, process_row, row_body.
  destruct (find_cells r) as [cells|e]; [|reflexivity].
  destruct (2 <=? length cells)%nat; simpl; [|discriminate].
  destruct (all_texts_of cells) as [all_texts|e]; [discriminate|].
  reflexivity.
Qed.

(** C4, as stated, fails: [driver.quit()] stands in the [finally]
    clause, outside every handler, and what it raises reaches the
    caller. *)
Lemma quit_failure_counterexample :
  let d := Driver (Return tt) (Return tt)
             (Return (Table (Return [plain_row ["Euro"; "4.0021"]])))
             (Raise (WebDriverException "session deleted")) in
  let w := World true (Return d) (Raise ImportError) in
  extract_exchange_rates w ["Euro"]
  = Raise (WebDriverException "session deleted").
Proof. vm_compute. reflexivity. Qed.

(** C4, amended. When closing the browser does not raise,
    [extract_exchange_rates] returns to its caller: it returns [None]
    when no browser can be launched, when the page does not load and
    when the table or its rows are not found; a row whose parsing raises
    is skipped and the other rows are processed as if it were absent. *)
Theorem extract_failure_policy (w : world) (targets : list string) :
  (∀ d, setup_chrome_driver w = Some d → quit d = Return tt) →
  (∃ r, extract_exchange_rates w targets = Return r) ∧
  (setup_chrome_driver w = None →
     extract_exchange_rates w targets = Return None) ∧
  (∀ d, setup_chrome_driver w = Some d →
     is_return (get_page d) = false ∨
     is_return (find_table d) = false ∨
     (∃ tbl, find_table d = Return tbl ∧ is_return (find_rows tbl) = false) →
     extract_exchange_rates w targets = Return None) ∧
  (∀ found rows1 r rows2, row_raises r = true →
     scan_rows targets found (rows1 ++ r :: rows2) =
     scan_rows targets found (rows1 ++ rows2)).
Proof.
  intros Hquit. unfold extract_exchange_rates.
  repeat split.
  - destruct (setup_chrome_driver w) as [d|] eqn:Hd; [|eauto].
    rewrite (Hquit d eq_refl).
    destruct (extract_try d targets); eauto.
  - intros ->. reflexivity.
  - intros d Hd Hfail. rewrite Hd, (Hquit d Hd). unfold extract_try.
    destruct (get_page d) as [[]|e]; [|reflexivity].
    destruct (find_table d) as [tbl|e]; [|reflexivity].
    destruct Hfail as [Hf|[Hf|(tbl' & Heq & Hf)]]; try discriminate.
    inversion Heq; subst tbl'.
    destruct (find_rows tbl); [discriminate|reflexivity].
  - intros found rows1 r rows2 Hr.
    rewrite !scan_rows_app. simpl.
    now rewrite row_raises_skipped.
Qed.

(** A page that does not load, with a browser that closes. *)
Lemma extract_failure_policy_witness :
  let d := Driver (Raise (WebDriverException "net::ERR")) (Return tt)
             (Raise TimeoutExpired) (Return tt) in
  let w := World true (Raise (WebDriverException "no chrome")) (Return d) in
  extract_exchange_rates w ["Euro"] = Return None.
Proof.
  intros d w.
  assert (Hquit : ∀ d', setup_chrome_driver w = Some d' →
                        quit d' = Return tt).
  { intros d' Hd'. vm_compute in Hd'. inversion Hd'. reflexivity. }
  destruct (extract_failure_policy w ["Euro"] Hquit)
    as (_ & _ & Hnone & _).
  apply (Hnone d).
  - reflexivity.
  - left. reflexivity.
Defined.

(** A row that raises between two rows that do not. *)
Example raising_row_skipped :
  let stale := Row (Return [Cell (Return "US Dollar");
                            Cell (Raise (WebDriverException "stale"))]) in
  let d := Driver (Return tt) (Raise TimeoutExpired)
             (Return (Table (Return [plain_row ["Euro"; "4.0021"]; stale;
                                     plain_row ["GB Pound"; "4.65"]])))
             (Return tt) in
  let recorded k :=
    match extract_exchange_rates
            (World true (Return d) (Raise ImportError)) target_currencies
    with
    | Return (Some found) => Some (found !! k)
    | _ => None
    end in
  recorded "Euro" = Some (Some "4.0021") ∧
  recorded "GB Pound" = Some (Some "4.65") ∧
  recorded "US Dollar" = Some None.
Proof. vm_compute. repeat split. Qed.

(** *** [commit_and_push] *)




(** *** The metadata record *)

Lemma build_metadata_success h data stats :
  success (build_metadata h data stats) =
  (0 <? currencies_extracted (build_metadata h data stats))%nat.
Proof.
  unfold build_metadata; simpl.
  destruct (data_truthy data); reflexivity.
Qed.

Lemma build_metadata_no_data h stats :
  success (build_metadata h None stats) = false ∧
  currencies_extracted (build_metadata h None stats) = 0%nat.
Proof. split; reflexivity. Qed.

Lemma save_metadata_written h data stats fs p fs' :
  save_metadata h data stats fs = (Some p, fs') →
  fs' !! data_path "metadata.json"
  = Some (MetadataFile (build_metadata h data stats)).
Proof.
  unfold save_metadata.
  destruct (mkdir_data h); [|discriminate].
  destruct (open_write h (data_path "metadata.json")); [|discriminate].
  intros Heq. inversion Heq; subst. apply lookup_insert_eq.
Qed.

(** C10. A metadata record written by [save_metadata] has
    [success = (currencies_extracted > 0)]; when the extraction returns
    no data and the file can be written, [main] writes the record with
    [success = False] and [currencies_extracted = 0]. *)
Theorem metadata_success_invariant (h : host) :
  (∀ data stats fs p fs',
     save_metadata h data stats fs = (Some p, fs') →
     ∃ m, fs' !! data_path "metadata.json" = Some (MetadataFile m) ∧
          success m = (0 <? currencies_extracted m)%nat ∧
          (success m = true → currencies_extracted m ≠ 0%nat)) ∧
  (∀ w fs,
     extract_exchange_rates w target_currencies = Return None →
     mkdir_data h = Return tt →
     open_write h (data_path "metadata.json") = Return tt →
     ∃ fs' m, main w h fs = Return (fs', None) ∧
              fs' !! data_path "metadata.json" = Some (MetadataFile m) ∧
              success m = false ∧ currencies_extracted m = 0%nat).
Proof.
  split.
  - intros data stats fs p fs' Hsave.
    exists (build_metadata h data stats).
    split; [exact (save_metadata_written _ _ _ _ _ _ Hsave)|].
    split; [apply build_metadata_success|].
    rewrite build_metadata_success. intros Hpos%Nat.ltb_lt. lia.
  - intros w fs Hextract Hmkdir Hopen.
    unfold main. rewrite Hextract. unfold save_metadata.
    rewrite Hmkdir, Hopen. simpl.
    eexists _, _. split; [reflexivity|].
    split; [apply lookup_insert_eq|]. split; reflexivity.
Qed.

Lemma metadata_success_invariant_witness :
  ∃ fs' m,
    main no_browser (example_host (git_reporting "")) ∅ = Return (fs', None) ∧
    fs' !! data_path "metadata.json" = Some (MetadataFile m) ∧
    success m = false ∧ currencies_extracted m = 0%nat.
Proof.
  apply (metadata_success_invariant (example_host (git_reporting "")));
    reflexivity.
Defined.

(** With two currencies extracted the record counts them. *)
Example metadata_after_success :
  let d : gmap string string :=
    {[ "Euro" := "4.0021"; "US Dollar" := "3.6725" ]} in
  let m := build_metadata (example_host (git_reporting "")) (Some d)
             (Stats None None None) in
  success m = true ∧ currencies_extracted m = 2%nat ∧
  notes m = "Extracted 2 currencies successfully".
Proof. vm_compute. repeat split. Qed.

End ExtractorProperties.

(** ** Properties of the installer *)

Section InstallerProperties.
Import Py Installer InstallerSpec.

(** *** Platform identification *)

Lemma known_systems (sys : string) :
  PLATFORM_MAPPING !! sys = None →
  sys ≠ "linux" ∧ sys ≠ "darwin" ∧ sys ≠ "windows".
Proof.
  unfold PLATFORM_MAPPING. simpl. intros Hnone.
  repeat split; intros ->; revert Hnone;
    rewrite ?(lookup_insert_ne _ "linux") by discriminate;
    rewrite ?(lookup_insert_ne _ "darwin") by discriminate;
    rewrite lookup_insert_eq; discriminate.
Qed.

Lemma no_probe_for_unknown_system (sys : string) :
  PLATFORM_MAPPING !! sys = None → chrome_commands !! sys = None.
Proof.
  intros (Hl & Hd & Hw)%known_systems.
  unfold chrome_commands. simpl.
  rewrite !lookup_insert_ne by congruence. apply lookup_empty.
Qed.

(** C7, as stated, fails: the pair (linux, aarch64) is no line of the
    table, yet it is identified, by the fallback on the name of the
    architecture, and the resolution goes on to the network. *)
Lemma unlisted_architecture_counterexample :
  let w := example_world "linux" "aarch64"
             (fun _ _ => Raise (RequestException "unreachable"))
             (fun _ => false) in
  in_mapping (system w) (machine w) = false ∧
  get_platform_identifier w = Some "linux64" ∧
  existsb is_network (get_compatible_chromedriver_version w []).2 = true.
Proof. vm_compute. repeat split. Qed.

(** C7, amended. When the operating system is none of those of the
    table, the identification of the platform returns [None] and the
    resolution of the version raises the unsupported-platform error
    without any call to the outside, so before any network request.
    When the operating system is one of the table and the architecture
    is not on its line, there is no failure: the identification returns
    the fallback tag, chosen by the name of the architecture. *)
Theorem unsupported_system_fails_fast (w : world) (t : list call) :
  (PLATFORM_MAPPING !! system w = None →
   get_platform_identifier w = None ∧
   get_compatible_chromedriver_version w t
   = (Raise (unsupported_platform w), t)) ∧
  (listed_system (system w) = true →
   in_mapping (system w) (machine w) = false →
   get_platform_identifier w
   = Some (fallback_tag (system w) (machine w))).
Proof.
  split.
  - intros Hnone.
    assert (Hid : get_platform_identifier w = None).
    { unfold get_platform_identifier. now rewrite Hnone. }
    split; [exact Hid|].
    unfold get_compatible_chromedriver_version, get_chrome_version.
    rewrite (no_probe_for_unknown_system _ Hnone), Hid. reflexivity.
  - unfold listed_system, in_mapping, get_platform_identifier, fallback_tag.
    destruct (PLATFORM_MAPPING !! system w) as [pv|] eqn:Hpv;
      [|discriminate].
    intros _. destruct (pv !! machine w); [discriminate|]. intros _.
    destruct (String.eqb_spec (system w) "linux"); [reflexivity|].
    destruct (String.eqb_spec (system w) "darwin"); [reflexivity|].
    destruct (String.eqb_spec (system w) "windows"); [reflexivity|].
    exfalso. revert Hpv. unfold PLATFORM_MAPPING. simpl.
    rewrite !lookup_insert_ne by congruence. rewrite lookup_empty.
    discriminate.
Qed.

Lemma unsupported_system_fails_fast_witness :
  (let w := example_world "freebsd" "amd64" manifest_server (fun _ => true) in
   get_platform_identifier w = None ∧
   get_compatible_chromedriver_version w []
   = (Raise (ValueError "Unsupported platform: freebsd amd64"), [])) ∧
  (let w := example_world "linux" "aarch64" manifest_server (fun _ => true) in
   get_platform_identifier w = Some "linux64") ∧
  (let w := example_world "darwin" "ppc" manifest_server (fun _ => true) in
   get_platform_identifier w = Some "mac-x64").
Proof.
  split; [|split].
  - apply (unsupported_system_fails_fast
             (example_world "freebsd" "amd64" manifest_server
                (fun _ => true)) []).
    vm_compute. reflexivity.
  - apply (unsupported_system_fails_fast
             (example_world "linux" "aarch64" manifest_server
                (fun _ => true)) []);
      vm_compute; reflexivity.
  - apply (unsupported_system_fails_fast
             (example_world "darwin" "ppc" manifest_server
                (fun _ => true)) []);
      vm_compute; reflexivity.
Defined.

Lemma supported_system_always_identified (w : world) :
  is_Some (PLATFORM_MAPPING !! system w) →
  is_Some (get_platform_identifier w).
Proof.
  intros [pv Hpv]. unfold get_platform_identifier. rewrite Hpv.
  destruct (pv !! machine w); [eauto|].
  destruct (String.eqb_spec (system w) "linux"); [eauto|].
  destruct (String.eqb_spec (system w) "darwin"); [eauto|].
  destruct (String.eqb_spec (system w) "windows"); [eauto|].
  exfalso. revert Hpv. unfold PLATFORM_MAPPING. simpl.
  rewrite !lookup_insert_ne by congruence. rewrite lookup_empty.
  discriminate.
Qed.

(** *** The order of the installation methods *)

Ltac run_monad :=
  unfold mbind, M_bind, bind, catch, ret, raise, lift, call_verify,
    call_get, any_exception; simpl.

Lemma print_unicode_ok (w : world) (t : list call) :
  can_print w = true → print_unicode w t = (Return tt, t).
Proof. unfold print_unicode. now intros ->. Qed.

Lemma print_unicode_fails (w : world) (t : list call) :
  can_print w = false → print_unicode w t = (Raise unicode_encode_error, t).
Proof. unfold print_unicode. now intros ->. Qed.

Lemma try_methods_first_verified (w : world) (t : list call) :
  can_print w = true →
  try_methods w (installation_methods w) t = first_verified w t.
Proof.
  intros Hp.
  unfold installation_methods, first_verified, attempt. simpl. run_monad.
  rewrite (print_unicode_ok w t Hp).
  destruct (install_via_package_manager w t) as [[[]|e1] t1]; simpl;
    [destruct (verify_installation w t1); simpl;
     [rewrite (print_unicode_ok w _ Hp); reflexivity|] | |];
    (rewrite (print_unicode_ok w _ Hp);
     destruct (_install_manual w _) as [[[]|e2] t2]; simpl;
     [destruct (verify_installation w t2); simpl;
      [rewrite (print_unicode_ok w _ Hp); reflexivity | reflexivity]
     | reflexivity | reflexivity]).
Qed.

(** When the message that announces a method cannot be printed, the
    method is not called. *)
Lemma try_methods_unprintable (w : world) (methods : list (string * M bool))
    (t : list call) :
  can_print w = false → try_methods w methods t = (Return false, t).
Proof.
  intros Hp. induction methods as [|[method_name method_func] methods IH];
    simpl; [reflexivity|].
  run_monad. rewrite (print_unicode_fails w t Hp). simpl. exact IH.
Qed.



(** The package manager is absent, the manual download installs, the
    verification succeeds once a download was installed. *)
Example manual_after_package_manager :
  let verify t := existsb (fun c => match c with
                                    | CallInstallToSystem _ => true
                                    | _ => false
                                    end) t in
  let w := example_world "linux" "x86_64" manifest_server verify in
  (install w []).1 = Return true ∧
  filter (fun c => negb (match c with CallRun _ => true | _ => false end))
         (install w []).2
  = [ CallGet CHROME_FOR_TESTING_API;
      CallDownload "https://example.org/121/linux64.zip" "121.0.6167.85";
      CallInstallToSystem "/tmp/extracted/chromedriver";
      CallVerify ].
Proof. vm_compute. split; reflexivity. Qed.

(** *** The resolution of the driver version *)

Lemma scan_downloads_find platform_id v downloads st :
  scan_downloads platform_id v downloads st =
  match List.find (fun d => platform_is d platform_id) downloads with
  | Some d => (Some v, url d)
  | None => st
  end.
Proof.
  induction downloads as [|d downloads IH]; simpl; [reflexivity|].
  destruct (platform_is d platform_id); [reflexivity | exact IH].
Qed.



(** A version starts with its major version. *)
Lemma major_version_prefix (v : string) :
  ∃ rest, v = major_version v +:+ rest.
Proof.
  unfold major_version. induction v as [|c v [rest IH]]; simpl.
  - exists "". reflexivity.
  - destruct (Ascii.eqb c "."); simpl.
    + exists (String c v). reflexivity.
    + destruct (split "." v) as [|m ms]; simpl in *.
      * exists v. reflexivity.
      * exists rest. now rewrite IH at 1.
Qed.

Lemma startswith_append (p r : string) : startswith (p +:+ r) p = true.
Proof.
  unfold startswith. induction p as [|c p IH]; simpl.
  - now destruct r.
  - destruct (ascii_dec c c); [exact IH | contradiction].
Qed.

Lemma startswith_same_length (m rest p : string) :
  String.length m = String.length p →
  startswith (m +:+ rest) p = true → m = p.
Proof.
  unfold startswith. revert p.
  induction m as [|c m IH]; intros [|c' p]; simpl; try discriminate.
  - reflexivity.
  - intros [= Hlen]. destruct (ascii_dec c' c) as [->|]; [|discriminate].
    intros Hpre. now rewrite (IH p Hlen Hpre).
Qed.

(** The prefix test is the test of the major version when the major
    version of the browser is not empty and the major versions of the
    entries have as many characters: such are the manifests of versions
    of three digits for a browser of three digits. *)
Lemma same_length_prefix_is_major (cv : string) (vs : list version_info) :
  major_version cv ≠ "" →
  (∀ vi, In vi vs →
     String.length (major_version (version vi))
     = String.length (major_version cv)) →
  prefix_is_major (Some cv) vs = true.
Proof.
  intros Hcv Hlen. simpl. apply forallb_forall. intros vi Hin.
  specialize (Hlen vi Hin).
  destruct (major_version_prefix (version vi)) as [rest Hv].
  destruct (String.eqb_spec (major_version (version vi)) (major_version cv))
    as [Heq|Hne].
  - assert (Hfull : truthy (version vi) = true).
    { rewrite Hv, Heq. destruct (major_version cv); [contradiction|].
      reflexivity. }
    rewrite Hfull, andb_true_r. rewrite Hv at 1. rewrite Heq.
    now rewrite startswith_append.
  - destruct (startswith (version vi) (major_version cv)) eqn:Hsw;
      [|reflexivity].
    rewrite Hv in Hsw. apply startswith_same_length in Hsw; [|exact Hlen].
    contradiction.
Qed.







(** Chrome 120 on Linux: the latest entry of version 120 has no Linux
    build, the one before it has. *)
Example resolution_matches_browser :
  let w := with_chrome_120
             (example_world "linux" "x86_64" manifest_server
                (fun _ => true)) in
  get_compatible_chromedriver_version w []
  = (Return ("120.0.6099.71", "https://example.org/120a/linux64.zip"),
     [CallRun ["google-chrome"; "--version"];
      CallGet CHROME_FOR_TESTING_API]).
Proof. vm_compute. reflexivity. Qed.

(** The manifest cannot be fetched: the legacy endpoint answers. *)
Example resolution_falls_back_to_legacy :
  let w := with_chrome_120
             (example_world "windows" "amd64" legacy_only
                (fun _ => true)) in
  get_compatible_chromedriver_version w []
  = (Return ("114.0.5735.90",
             "https://chromedriver.storage.googleapis.com/114.0.5735.90/chromedriver_win64.zip"),
     [CallRun ["chrome.exe"; "--version"];
      CallRun ["chromium.exe"; "--version"];
      CallGet CHROME_FOR_TESTING_API; CallGet LEGACY_API]).
Proof. vm_compute. reflexivity. Qed.

(** The match of the code is a prefix test on the text of the version:
    for a browser of major version 12 the loops take the driver 121. *)
Example resolution_matches_by_prefix :
  modern_choice (Some "12.0.742.112") "linux64" (versions example_manifest)
  = (Some "121.0.6167.85", Some "https://example.org/121/linux64.zip").
Proof. vm_compute. reflexivity. Qed.

(** Neither answers: the error. *)
Example resolution_exhausted :
  let w := example_world "darwin" "arm64"
             (fun _ _ => Raise (RequestException "offline"))
             (fun _ => true) in
  (get_compatible_chromedriver_version w []).1
  = Raise (RuntimeError "Unable to determine ChromeDriver version").
Proof. vm_compute. reflexivity. Qed.

(** A blank answer of the browser makes the detection itself raise,
    before the resolution starts. *)
Example blank_version_line :
  let w := World "linux" "x86_64" "python3"
             (fun _ _ => Return (Completed 0 " " ""))
             manifest_server (fun _ _ _ => Raise FileNotFoundError)
             (fun _ _ => Return false) (fun _ => false) true true in
  get_compatible_chromedriver_version w []
  = (Raise IndexError, [CallRun ["google-chrome"; "--version"]]).
Proof. vm_compute. reflexivity. Qed.

(** The installer is verbose and the message that announces the
    version of the browser cannot be printed: the detection raises, and
    the manual download fails before any request. *)
Example unprintable_version_message :
  let w := with_ascii_stdout
             (with_chrome_120
                (example_world "linux" "x86_64" manifest_server
                   (fun _ => true))) in
  get_compatible_chromedriver_version w []
  = (Raise unicode_encode_error, [CallRun ["google-chrome"; "--version"]]) ∧
  _install_manual w []
  = (Return false, [CallRun ["google-chrome"; "--version"]]).
Proof. vm_compute. split; reflexivity. Qed.

End InstallerProperties.

(** ** Further properties of the rate extractor *)

Section ExtractorFurther.
Import Py Extractor Spec.

(** *** Validation of a rate *)

Lemma without_separator_inside (a b : string) (c : ascii) :
  Ascii.eqb c " " || Ascii.eqb c "," = true →
  without_spaces_and_commas (a +:+ String c b)
  = without_spaces_and_commas (a +:+ b).
Proof.
  intros Hc. induction a as [|x a IH]; simpl.
  - now rewrite Hc.
  - now rewrite IH.
Qed.

Lemma is_valid_rate_cleaned (text : string) :
  is_valid_rate text =
  match float (without_spaces_and_commas text) with
  | Some rate => float_le rate_min rate && float_le rate rate_max
  | None => false
  end.
Proof. unfold is_valid_rate. now rewrite replace_space_comma. Qed.

(** X1. A space or a comma anywhere in a text does not change the
    verdict of [is_valid_rate]: the text is judged as if the separator
    were not there. *)
Theorem is_valid_rate_ignores_separators (a b : string) :
  is_valid_rate (a +:+ String " " b) = is_valid_rate (a +:+ b) ∧
  is_valid_rate (a +:+ String "," b) = is_valid_rate (a +:+ b).
Proof.
  rewrite !is_valid_rate_cleaned.
  rewrite !without_separator_inside by reflexivity.
  split; reflexivity.
Qed.

(** X2. A text that [is_valid_rate] accepts stands for a finite positive
    number: a NaN, an infinity, a zero and any negative number are
    rejected, and so is the empty text. *)
Theorem valid_rate_is_positive_finite (text : string) :
  is_valid_rate text = true →
  text ≠ "" ∧
  ∃ m e, float (without_spaces_and_commas text)
         = Some (S754_finite false m e).
Proof.
  intros Hvalid. split.
  - intros ->. vm_compute in Hvalid. discriminate.
  - rewrite is_valid_rate_cleaned in Hvalid.
    destruct (float (without_spaces_and_commas text)) as [rate|];
      [|discriminate].
    destruct (out_of_range_floats rate Hvalid) as (m & e & ->). eauto.
Qed.

Lemma valid_rate_is_positive_finite_witness :
  "3.6725" ≠ "" ∧
  ∃ m e, float (without_spaces_and_commas "3.6725")
         = Some (S754_finite false m e).
Proof.
  apply (valid_rate_is_positive_finite "3.6725").
  vm_compute. reflexivity.
Defined.

(** *** What a row yields *)

Lemma find_rate_find (all_texts : list string) :
  find_rate all_texts = List.find is_valid_rate all_texts.
Proof.
  induction all_texts as [|text all_texts IH]; simpl; [reflexivity|].
  destruct (is_valid_rate text); [reflexivity | exact IH].
Qed.

Lemma find_some_holds {A} (f : A → bool) (l : list A) (x : A) :
  List.find f l = Some x → f x = true ∧ In x l.
Proof.
  induction l as [|y l IH]; simpl; [discriminate|].
  destruct (f y) eqn:Hy.
  - intros [= ->]. auto.
  - intros H. destruct (IH H). auto.
Qed.

(** The two loops of a row, as two searches. *)
Lemma row_entry_find (targets all_texts : list string) :
  row_entry targets all_texts =
  match List.find (cell_matches targets) all_texts,
        List.find is_valid_rate all_texts with
  | Some c, Some r => Some (c, r)
  | _, _ => None
  end.
Proof.
  unfold row_entry. rewrite find_rate_find.
  pose proof (scan_cells_first_cell targets all_texts None eq_refl) as Hc.
  fold (find_currency targets all_texts) in Hc.
  destruct (List.find (cell_matches targets) all_texts) as [c|] eqn:Hfind.
  - rewrite Hc.
    apply find_some_holds in Hfind as [Hm _].
    unfold cell_matches in Hm. apply andb_true_iff in Hm as [Ht _].
    simpl. rewrite Ht.
    destruct (List.find is_valid_rate all_texts) as [r|] eqn:Hr;
      [|reflexivity].
    apply find_some_holds in Hr as [Hr _].
    destruct r; [vm_compute in Hr; discriminate | reflexivity].
  - destruct (find_currency targets all_texts) as [c|]; [|reflexivity].
    rewrite Hc. reflexivity.
Qed.




(** A row can take its rate from the cell that names the currency, and a
    row without a rate is dropped. *)
Example row_entry_examples :
  row_entry ["US Dollar"] ["1"; "US Dollar"; "3.6725"]
  = Some ("US Dollar", "1") ∧
  row_entry ["Euro"] ["Euro"; "n/a"] = None ∧
  row_entry ["Euro"] ["Yen"; "0.0245"] = None ∧
  row_entry [] ["Euro"; "4.0021"] = None.
Proof. vm_compute. repeat split. Qed.

(** *** What the extraction returns *)

Lemma row_yield_entry targets r k v :
  row_yield targets r = Some (k, v) →
  is_valid_rate v = true ∧ cell_matches targets k = true.
Proof.
  unfold row_yield.
  destruct (find_cells r) as [cells|e]; [|discriminate].
  destruct (2 <=? length cells)%nat; [|discriminate].
  destruct (all_texts_of cells) as [all_texts|e]; [|discriminate].
  rewrite row_entry_find.
  destruct (List.find (cell_matches targets) all_texts) as [c|] eqn:Hc;
    [|discriminate].
  destruct (List.find is_valid_rate all_texts) as [rate|] eqn:Hr;
    [|discriminate].
  intros [= <- <-].
  apply find_some_holds in Hc as [Hc _].
  apply find_some_holds in Hr as [Hr _]. auto.
Qed.

(** Every entry of the mapping is there from the start or is the yield of
    a row. *)
Lemma scan_rows_entries targets rows :
  ∀ found k v,
    scan_rows targets found rows !! k = Some v →
    found !! k = Some v ∨
    ∃ r, In r rows ∧ row_yield targets r = Some (k, v).
Proof.
  induction rows as [|r rows IH]; intros found k v Hk; simpl in *.
  - left. exact Hk.
  - destruct (IH _ _ _ Hk) as [Hfound|(r' & Hin & Hy)].
    + rewrite process_row_yield in Hfound.
      destruct (row_yield targets r) as [[k' v']|] eqn:Hy.
      * destruct (decide (k' = k)) as [->|Hne].
        -- rewrite lookup_insert_eq in Hfound. injection Hfound as ->.
           right. exists r. auto.
        -- rewrite lookup_insert_ne in Hfound by exact Hne. auto.
      * auto.
    + right. exists r'. auto.
Qed.

Lemma extract_returns_scan w targets d :
  extract_exchange_rates w targets = Return (Some d) →
  ∃ rows, d = scan_rows targets ∅ rows ∧ dict_truthy d = true.
Proof.
  unfold extract_exchange_rates.
  destruct (setup_chrome_driver w) as [drv|]; [|discriminate].
  destruct (extract_try drv targets) as [r|e] eqn:Htry;
    destruct (quit drv); try discriminate.
  intros [= ->]. unfold extract_try in Htry.
  destruct (get_page drv); [|discriminate].
  destruct (find_table drv) as [tbl|]; [|discriminate].
  destruct (find_rows tbl) as [rows|]; [|discriminate].
  destruct (dict_truthy (scan_rows targets ∅ rows)) eqn:Ht;
    [|discriminate].
  injection Htry as <-. eauto.
Qed.

Lemma extracted_entries_valid_aux w targets d k v :
  extract_exchange_rates w targets = Return (Some d) →
  d !! k = Some v →
  ∃ target, In target targets.
Proof.
  intros Hx Hk. apply extract_returns_scan in Hx as (rows & -> & _).
  apply scan_rows_entries in Hk as [Hk|(r & _ & Hy)];
    [rewrite lookup_empty in Hk; discriminate|].
  apply row_yield_entry in Hy as [_ Hm].
  unfold cell_matches in Hm. apply andb_true_iff in Hm as [_ Hex].
  apply existsb_exists in Hex as (target & Hin & _). eauto.
Qed.

(** X4. In a mapping that [extract_exchange_rates] returns, every rate
    passes [is_valid_rate] and every key is a cell text that is not empty
    and holds, without regard to case, one of the fragments asked for. *)
Theorem extracted_entries_are_valid w targets d k v :
  extract_exchange_rates w targets = Return (Some d) →
  d !! k = Some v →
  is_valid_rate v = true ∧ k ≠ "" ∧
  ∃ target, In target targets ∧ str_in (lower target) (lower k) = true.
Proof.
  intros Hx Hk. apply extract_returns_scan in Hx as (rows & -> & _).
  apply scan_rows_entries in Hk as [Hk|(r & _ & Hy)];
    [rewrite lookup_empty in Hk; discriminate|].
  apply row_yield_entry in Hy as [Hv Hm]. split; [exact Hv|].
  unfold cell_matches in Hm. apply andb_true_iff in Hm as [Ht Hex].
  split; [intros ->; discriminate|].
  apply existsb_exists in Hex as (target & Hin & Hf). eauto.
Qed.

(** X5. [extract_exchange_rates] never returns an empty mapping: when no
    row yields a pair it returns [None]; with an empty list of fragments
    it cannot return a mapping. *)
Theorem extract_never_returns_empty w targets d :
  extract_exchange_rates w targets = Return (Some d) →
  d ≠ ∅ ∧ targets ≠ [].
Proof.
  intros Hx.
  destruct (extract_returns_scan _ _ _ Hx) as (rows & _ & Ht).
  assert (Hne : d ≠ ∅).
  { intros ->. unfold dict_truthy in Ht. rewrite map_size_empty in Ht.
    discriminate. }
  split; [exact Hne|].
  destruct (map_choose d Hne) as (k & v & Hk).
  destruct (extracted_entries_valid_aux w targets d k v Hx Hk)
    as (target & Hin). intros ->. exact Hin.
Qed.

Lemma extracted_entries_are_valid_witness :
  is_valid_rate "4.0021" = true ∧ "Euro" ≠ "" ∧
  ∃ target, In target target_currencies ∧
            str_in (lower target) (lower "Euro") = true.
Proof.
  apply (extracted_entries_are_valid
           (page_world [plain_row ["Euro"; "4.0021"]]) target_currencies
           {[ "Euro" := "4.0021" ]} "Euro" "4.0021").
  - vm_compute. reflexivity.
  - apply lookup_singleton_eq.
Defined.

Lemma extract_never_returns_empty_witness :
  ({[ "Euro" := "4.0021" ]} : gmap string string) ≠ ∅ ∧
  target_currencies ≠ [].
Proof.
  apply (extract_never_returns_empty
           (page_world [plain_row ["Euro"; "4.0021"]]) target_currencies).
  vm_compute. reflexivity.
Defined.

(** A table without any of the currencies gives [None]. *)
Example extract_nothing_matched :
  extract_exchange_rates
    (page_world [plain_row ["Currency"; "Rate"];
                 plain_row ["Indian Rupee"; "0.0441"]])
    target_currencies = Return None.
Proof. vm_compute. reflexivity. Qed.

(** *** The case of the fragments *)

Lemma lower_char_idempotent (c : ascii) :
  lower_char (lower_char c) = lower_char c.
Proof. destruct c as [[] [] [] [] [] [] [] []]; reflexivity. Qed.

Lemma lower_idempotent (s : string) : lower (lower s) = lower s.
Proof.
  induction s as [|c s IH]; simpl; [reflexivity|].
  now rewrite lower_char_idempotent, IH.
Qed.

Lemma existsb_fragment_lower (text : string) (targets : list string) :
  existsb (fragment_in text) targets
  = existsb (fun l => str_in l (lower text)) (map lower targets).
Proof.
  induction targets as [|t targets IH]; simpl; [reflexivity|].
  now rewrite IH.
Qed.

Lemma scan_cells_ext targets targets' all_texts :
  (∀ text, existsb (fragment_in text) targets
           = existsb (fragment_in text) targets') →
  ∀ currency_found,
    scan_cells all_texts targets currency_found
    = scan_cells all_texts targets' currency_found.
Proof.
  intros Hex. induction all_texts as [|text all_texts IH]; intros cf; simpl.
  - reflexivity.
  - rewrite !scan_targets_existsb, Hex.
    destruct (truthy_opt _); [reflexivity | apply IH].
Qed.

(** X6. The case of the letters of the fragments plays no part: two lists
    of fragments that agree once in lower case give the same pair for
    every row. The key that is recorded keeps the case of the cell. *)
Theorem fragments_case_insensitive (targets targets' all_texts : list string) :
  map lower targets = map lower targets' →
  row_entry targets all_texts = row_entry targets' all_texts.
Proof.
  intros Hlow. unfold row_entry, find_currency.
  rewrite (scan_cells_ext targets targets' all_texts); [reflexivity|].
  intros text. now rewrite !existsb_fragment_lower, Hlow.
Qed.

Lemma fragments_case_insensitive_witness :
  row_entry ["us dollar"] ["US Dollar"; "3.6725"]
  = row_entry ["US DOLLAR"] ["US Dollar"; "3.6725"].
Proof.
  apply (fragments_case_insensitive ["us dollar"] ["US DOLLAR"]).
  reflexivity.
Defined.

Example key_keeps_case :
  row_entry ["us dollar"] ["US Dollar"; "3.6725"]
  = Some ("US Dollar", "3.6725").
Proof. vm_compute. reflexivity. Qed.

(** *** Publication *)

(** X7. [commit_and_push] returns [True] in two cases only, both after a
    [git status] and a [git add] that end with status zero: the commit
    fails and reports [nothing to commit], or the commit succeeds and the
    push ends with status zero. A failed push, a command that cannot be
    run and every other outcome give [False]. *)
Theorem commit_and_push_true_iff (h : host) :
  commit_and_push h = true ↔
  ∃ st ad cm,
    run h ["git"; "status"] = Return st ∧ returncode st = 0 ∧
    run h ["git"; "add"; "data/"] = Return ad ∧ returncode ad = 0 ∧
    run h ["git"; "commit"; "-m"; commit_message h] = Return cm ∧
    ((returncode cm ≠ 0 ∧ str_in "nothing to commit" (stdout cm) = true) ∨
     (returncode cm = 0 ∧
      ∃ ps, run h ["git"; "push"] = Return ps ∧ returncode ps = 0)).
Proof.
  unfold commit_and_push, commit_and_push_try, commit_message.
  destruct (run h ["git"; "status"]) as [st|e].
  2:{ split; [discriminate|]. intros (? & ? & ? & [=] & _). }
  destruct (Z.eqb_spec (returncode st) 0) as [Hst|Hst]; simpl.
  2:{ split; [discriminate|].
      intros (? & ? & ? & [= <-] & H0 & _). contradiction. }
  destruct (run h ["git"; "add"; "data/"]) as [ad|e].
  2:{ split; [discriminate|]. intros (? & ? & ? & _ & _ & [=] & _). }
  destruct (Z.eqb_spec (returncode ad) 0) as [Had|Had]; simpl.
  2:{ split; [discriminate|].
      intros (? & ? & ? & _ & _ & [= <-] & H0 & _). contradiction. }
  destruct (run h ["git"; "commit"; "-m";
                   "Update CBUAE rates - " +:+ now_local h]) as [cm|e].
  2:{ split; [discriminate|].
      intros (? & ? & ? & _ & _ & _ & _ & [=] & _). }
  destruct (Z.eqb_spec (returncode cm) 0) as [Hcm|Hcm]; simpl.
  - destruct (run h ["git"; "push"]) as [ps|e].
    + destruct (Z.eqb_spec (returncode ps) 0) as [Hps|Hps].
      * split; [|reflexivity]. intros _.
        exists st, ad, cm. repeat (split; [assumption || reflexivity|]).
        right. split; [exact Hcm|]. exists ps. auto.
      * split; [discriminate|].
        intros (? & ? & cm' & _ & _ & _ & _ & [= <-] & [[H0 _]|[_ Hp]]);
          [contradiction|].
        destruct Hp as (ps' & [= <-] & Hp). contradiction.
    + split; [discriminate|].
      intros (? & ? & cm' & _ & _ & _ & _ & [= <-] & [[H0 _]|[_ Hp]]);
        [contradiction|].
      destruct Hp as (ps' & [=] & _).
  - destruct (str_in "nothing to commit" (stdout cm)) eqn:Hout.
    + split; [|reflexivity]. intros _.
      exists st, ad, cm. repeat (split; [assumption || reflexivity|]).
      left. auto.
    + split; [discriminate|].
      intros (? & ? & cm' & _ & _ & _ & _ & [= <-] & [[_ H1]|[H0 _]]);
        [congruence | contradiction].
Qed.

(** *** The data files *)

Lemma rate_rows_return timestamp items rows :
  rate_rows timestamp items = Return rows →
  map (fun row => (currency row, rate row)) rows = items ∧
  Forall (fun row => float (rate row) = Some (rate_float row) ∧
                     extraction_timestamp row = timestamp ∧
                     extraction_method row = "selenium_simple") rows.
Proof.
  revert rows. induction items as [|[c r] items IH]; intros rows; simpl.
  - intros [= <-]. split; [reflexivity | constructor].
  - destruct (float r) as [f|] eqn:Hf; [|discriminate].
    destruct (rate_rows timestamp items) as [rows'|e]; [|discriminate].
    intros [= <-]. destruct (IH rows' eq_refl) as [Hmap Hall].
    split; simpl; [now rewrite Hmap|]. constructor; auto.
Qed.

Lemma rate_rows_raise timestamp items c r :
  In (c, r) items → float r = None →
  ∃ e, rate_rows timestamp items = Raise e.
Proof.
  induction items as [|[c' r'] items IH]; simpl; [tauto|].
  intros [[= -> ->]|Hin] Hnone.
  - rewrite Hnone. eauto.
  - destruct (float r'); [|eauto].
    destruct (IH Hin Hnone) as [e ->]. eauto.
Qed.

Lemma rate_rows_of h data rows :
  rate_rows (now_utc h) (map_to_list data) = Return rows →
  rows_of h data rows.
Proof.
  intros Hrows. apply rate_rows_return in Hrows as [Hmap Hall].
  split; [|split; [|exact Hall]].
  - rewrite <- (length_map (fun row => (currency row, rate row))), Hmap.
    apply length_map_to_list.
  - intros k v. rewrite <- elem_of_map_to_list, <- Hmap.
    rewrite list_elem_of_In, in_map_iff. split.
    + intros (row & [= <- <-] & Hin). eauto.
    + intros (row & Hin & <- & <-). eauto.
Qed.

Lemma rows_of_nil h data : rows_of h data [] → data = ∅.
Proof. intros [Hlen _]. apply map_size_empty_iff. simpl in Hlen. lia. Qed.

Lemma rows_of_cons h data row rows : rows_of h data (row :: rows) → data ≠ ∅.
Proof.
  intros [Hlen _] ->. rewrite map_size_empty in Hlen. discriminate.
Qed.

(** X8. A file that [save_to_json] or [save_to_csv] writes holds the
    mapping: one row for each entry and no other row, each with the float
    of its rate, the time stamp and the method tag. For an empty mapping
    [save_to_csv] returns the path without writing, while [save_to_json]
    writes an empty list. *)
Theorem saved_file_holds_the_mapping h data filename fs p fs' :
  save_to_json h data filename fs = (Some p, fs') ∨
  save_to_csv h data filename fs = (Some p, fs') →
  p = data_path filename ∧
  ∃ rows, rows_of h data rows ∧
    ((save_to_json h data filename fs = (Some p, fs') ∧
      fs' = <[p := JsonFile rows]> fs) ∨
     (save_to_csv h data filename fs = (Some p, fs') ∧
      fs' = if decide (data = ∅) then fs else <[p := CsvFile rows]> fs)).
Proof.
  intros [Hsave|Hsave]; pose proof Hsave as Hkeep; revert Hsave;
    unfold save_to_json, save_to_csv;
    (destruct (mkdir_data h); [|discriminate]);
    (destruct (rate_rows (now_utc h) (map_to_list data)) as [rows|e]
       eqn:Hrows; [|discriminate]);
    apply rate_rows_of in Hrows.
  - destruct (open_write h (data_path filename)); [|discriminate].
    intros [= <- <-]. split; [reflexivity|]. exists rows. auto.
  - destruct rows as [|row rows].
    + intros [= <- <-]. split; [reflexivity|]. exists [].
      split; [exact Hrows|]. right. split; [reflexivity|].
      rewrite decide_True by (eapply rows_of_nil; eauto). reflexivity.
    + destruct (open_write h (data_path filename)); [|discriminate].
      intros [= <- <-]. split; [reflexivity|]. exists (row :: rows).
      split; [exact Hrows|]. right. split; [reflexivity|].
      rewrite decide_False by (eapply rows_of_cons; eauto). reflexivity.
Qed.

Lemma saved_file_holds_the_mapping_witness :
  let h := example_host (git_reporting "") in
  let data : gmap string string := {[ "US Dollar" := "3.6725" ]} in
  let fs' := (save_to_json h data "latest_rates.json" ∅).2 in
  ∃ rows, rows_of h data rows ∧
    ((save_to_json h data "latest_rates.json" ∅
      = (Some "data/latest_rates.json", fs') ∧
      fs' = <[ "data/latest_rates.json" := JsonFile rows ]> ∅) ∨
     (save_to_csv h data "latest_rates.json" ∅
      = (Some "data/latest_rates.json", fs') ∧
      fs' = if decide (data = ∅) then ∅
            else <[ "data/latest_rates.json" := CsvFile rows ]> ∅)).
Proof.
  intros h data fs'.
  apply (saved_file_holds_the_mapping h data "latest_rates.json" ∅
           "data/latest_rates.json" fs').
  left. reflexivity.
Defined.

Lemma unparsable_rate_aux h data k r filename fs :
  data !! k = Some r → float r = None →
  save_to_csv h data filename fs = (None, fs) ∧
  save_to_json h data filename fs = (None, fs).
Proof.
  intros Hk Hnone.
  assert (Hin : In (k, r) (map_to_list data)).
  { apply list_elem_of_In, elem_of_map_to_list. exact Hk. }
  destruct (rate_rows_raise (now_utc h) _ _ _ Hin Hnone) as [e He].
  unfold save_to_csv, save_to_json. rewrite He.
  destruct (mkdir_data h); split; reflexivity.
Qed.

(** X9. When the text of one rate is not a float for Python, with a
    comma or a space in it for instance, neither [save_to_csv] nor
    [save_to_json] writes anything: both return [None] and leave the
    files as they are. [is_valid_rate] accepts such texts, because it
    removes the separators before it converts. *)
Theorem unparsable_rate_blocks_files h data k r filename fs :
  data !! k = Some r → float r = None →
  save_to_csv h data filename fs = (None, fs) ∧
  save_to_json h data filename fs = (None, fs).
Proof.
  intros Hk Hnone. split.
  - apply (unparsable_rate_aux h data k r filename fs Hk Hnone).
  - apply (unparsable_rate_aux h data k r filename fs Hk Hnone).
Qed.

Lemma unparsable_rate_blocks_files_witness :
  is_valid_rate "0,27" = true ∧
  let data : gmap string string := {[ "Euro" := "0,27" ]} in
  let h := example_host (git_reporting "") in
  save_to_csv h data "latest_rates.csv" ∅ = (None, ∅) ∧
  save_to_json h data "latest_rates.json" ∅ = (None, ∅).
Proof.
  split; [vm_compute; reflexivity|]. intros data h.
  split.
  - apply (unparsable_rate_blocks_files h data "Euro" "0,27").
    + apply lookup_singleton_eq.
    + vm_compute. reflexivity.
  - apply (unparsable_rate_blocks_files h data "Euro" "0,27").
    + apply lookup_singleton_eq.
    + vm_compute. reflexivity.
Defined.

(** *** The run of [main] *)








End ExtractorFurther.

(** ** Further properties of the installer *)

Section InstallerFurther.
Import Py Installer InstallerSpec.

Ltac run_monad :=
  unfold call_run_checked;
  unfold mbind, M_bind, bind, catch, ret, raise, lift, call_verify,
    call_get, call_run, any_exception; simpl.

(** *** Platform identification *)

(** X12. [get_platform_identifier] returns [None] exactly for an
    operating system that the table does not list; for a listed system it
    returns one of the two tags of that system, whatever the
    architecture. *)
Theorem platform_identifier_range (w : world) :
  (get_platform_identifier w = None ↔ PLATFORM_MAPPING !! system w = None) ∧
  ∀ p, get_platform_identifier w = Some p → In (system w, p) platform_tags.
Proof.
  unfold get_platform_identifier, PLATFORM_MAPPING, platform_tags.
  cbn [list_to_map foldr uncurry fst snd].
  destruct (decide (system w = "linux")) as [->|Hl].
  { rewrite lookup_insert_eq. split.
    - split; [|discriminate].
      destruct (_ !! machine w); [discriminate|].
      simpl. discriminate.
    - intros p.
      rewrite !lookup_insert.
      repeat case_decide; try rewrite lookup_empty; simpl;
        try destruct (str_in "64" (machine w));
        intros [= <-]; simpl; tauto. }
  rewrite (lookup_insert_ne _ "linux") by congruence.
  destruct (decide (system w = "darwin")) as [->|Hd].
  { rewrite lookup_insert_eq. split.
    - split; [|discriminate].
      destruct (_ !! machine w); [discriminate|].
      simpl. discriminate.
    - intros p.
      rewrite !lookup_insert.
      repeat case_decide; try rewrite lookup_empty; simpl;
        try destruct (str_in "arm" (machine w));
        intros [= <-]; simpl; tauto. }
  rewrite (lookup_insert_ne _ "darwin") by congruence.
  destruct (decide (system w = "windows")) as [->|Hw].
  { rewrite lookup_insert_eq. split.
    - split; [|discriminate].
      destruct (_ !! machine w); [discriminate|].
      simpl. discriminate.
    - intros p.
      rewrite !lookup_insert.
      repeat case_decide; try rewrite lookup_empty; simpl;
        try destruct (str_in "64" (machine w));
        intros [= <-]; simpl; tauto. }
  rewrite (lookup_insert_ne _ "windows") by congruence.
  rewrite lookup_empty. split; [tauto | discriminate].
Qed.

Lemma platform_identifier_range_witness :
  In ("windows", "win32") platform_tags.
Proof.
  apply (proj2 (platform_identifier_range
                  (example_world "windows" "arm" manifest_server
                     (fun _ => true))) "win32").
  vm_compute. reflexivity.
Defined.

(** *** Detection of the browser *)

Lemma split_ws_aux_tokens (s : string) :
  ∀ cur, Forall (fun tok => tok ≠ "") (split_ws_aux s cur).
Proof.
  induction s as [|c s IH]; intros cur; simpl.
  - destruct cur; [constructor | repeat constructor; discriminate].
  - destruct (is_whitespace c).
    + destruct cur; [apply IH|].
      constructor; [discriminate | apply IH].
    + apply IH.
Qed.

Lemma last_token_not_empty (s v : string) :
  last (split_ws s) = Some v → v ≠ "".
Proof.
  intros (l & Hl)%last_Some.
  pose proof (split_ws_aux_tokens s "") as Hall.
  fold (split_ws s) in Hall. rewrite Hl in Hall.
  apply Forall_app in Hall as [_ Hv]. now inversion Hv.
Qed.

Lemma detection_stops_next (w : world) (t : list call)
    (cmd : list string) (tried : list (list string))
    (r : result (option string)) :
  passed_over w t cmd = true →
  detection_stops w (t ++ [CallRun cmd]) tried r →
  detection_stops w t (cmd :: tried) r.
Proof.
  intros Hover Hstops.
  assert (Hrest :
    (∃ pre c, tried = pre ++ [c] ∧
       all_passed_over w (t ++ [CallRun cmd]) pre = true ∧
       passed_over w ((t ++ [CallRun cmd]) ++ map CallRun pre) c = false ∧
       ∀ v, r = Return (Some v) →
         ∃ res, run w ((t ++ [CallRun cmd]) ++ map CallRun pre) c
                = Return res ∧
                returncode res = 0 ∧
                last (split_ws (strip (stdout res))) = Some v) →
    ∃ pre c, cmd :: tried = pre ++ [c] ∧
       all_passed_over w t pre = true ∧
       passed_over w (t ++ map CallRun pre) c = false ∧
       ∀ v, r = Return (Some v) →
         ∃ res, run w (t ++ map CallRun pre) c = Return res ∧
                returncode res = 0 ∧
                last (split_ws (strip (stdout res))) = Some v).
  { intros (pre & c & -> & Hpre & Hc & Hv).
    exists (cmd :: pre), c. simpl. rewrite Hover, Hpre.
    rewrite <- app_assoc in Hc, Hv. simpl in Hc, Hv.
    split; [reflexivity|]. split; [reflexivity|].
    split; [exact Hc | exact Hv]. }
  destruct r as [[v|]|e]; simpl in *.
  - apply Hrest, Hstops.
  - now rewrite Hover, Hstops.
  - apply Hrest, Hstops.
Qed.

Lemma probe_chrome_calls (w : world) (commands : list (list string)) :
  ∀ t r t', probe_chrome w commands t = (r, t') →
    ∃ tried, tried `prefix_of` commands ∧
             t' = t ++ map CallRun tried ∧
             (r = Return None → tried = commands) ∧
             (∀ v, r = Return (Some v) → v ≠ "") ∧
             detection_stops w t tried r.
Proof.
  induction commands as [|cmd commands IH]; intros t r t'; simpl.
  - unfold ret. intros [= <- <-]. exists []. rewrite app_nil_r.
    split; [apply prefix_nil|]. split; [reflexivity|].
    split; [reflexivity|]. split; [discriminate | reflexivity].
  - run_monad.
    assert (Hnext : passed_over w t cmd = true →
              probe_chrome w commands (t ++ [CallRun cmd]) = (r, t') →
              ∃ tried, tried `prefix_of` cmd :: commands ∧
                       t' = t ++ map CallRun tried ∧
                       (r = Return None → tried = cmd :: commands) ∧
                       (∀ v, r = Return (Some v) → v ≠ "") ∧
                       detection_stops w t tried r).
    { intros Hover (tried & Hpre & -> & Hnone & Hsome & Hstops)%IH.
      exists (cmd :: tried). simpl. rewrite <- app_assoc. simpl.
      split; [now apply prefix_cons|]. split; [reflexivity|].
      split; [intros ->%Hnone; reflexivity|].
      split; [exact Hsome | now apply detection_stops_next]. }
    assert (Hstop : ∀ r0, (∀ v, r0 = Return (Some v) → v ≠ "") →
              r0 ≠ Return None →
              passed_over w t cmd = false →
              (∀ v, r0 = Return (Some v) →
                 ∃ res, run w t cmd = Return res ∧ returncode res = 0 ∧
                        last (split_ws (strip (stdout res))) = Some v) →
              (r0, t ++ [CallRun cmd]) = (r, t') →
              ∃ tried, tried `prefix_of` cmd :: commands ∧
                       t' = t ++ map CallRun tried ∧
                       (r = Return None → tried = cmd :: commands) ∧
                       (∀ v, r = Return (Some v) → v ≠ "") ∧
                       detection_stops w t tried r).
    { intros r0 Hv Hn Hover Hres [= <- <-]. exists [cmd]. simpl.
      split; [apply prefix_cons, prefix_nil|]. split; [reflexivity|].
      split; [intros ->; contradiction|]. split; [exact Hv|].
      assert (Hlast : ∃ pre c, [cmd] = pre ++ [c] ∧
                all_passed_over w t pre = true ∧
                passed_over w (t ++ map CallRun pre) c = false ∧
                ∀ v, r0 = Return (Some v) →
                  ∃ res, run w (t ++ map CallRun pre) c = Return res ∧
                         returncode res = 0 ∧
                         last (split_ws (strip (stdout res))) = Some v).
      { exists [], cmd. simpl. rewrite app_nil_r.
        split; [reflexivity|]. split; [reflexivity|].
        split; [exact Hover | exact Hres]. }
      destruct r0 as [[v|]|e]; simpl; [exact Hlast | contradiction
                                      | exact Hlast]. }
    unfold passed_over in Hnext, Hstop.
    destruct (run w t cmd) as [res|e]; simpl.
    + destruct (Z.eqb_spec (returncode res) 0) as [Hzero|_]; simpl;
        [|now apply Hnext].
      destruct (last (split_ws (strip (stdout res)))) as [v|] eqn:Hlast;
        simpl.
      * unfold print_unicode. destruct (can_print w); simpl.
        -- apply Hstop; [| discriminate | reflexivity |].
           ++ intros v' [= <-]. eapply last_token_not_empty, Hlast.
           ++ intros v' [= <-]. exists res. auto.
        -- apply Hstop;
             [discriminate | discriminate | reflexivity | discriminate].
      * apply Hstop;
          [discriminate | discriminate | reflexivity | discriminate].
    + destruct e; simpl;
        first [ now apply Hnext
              | apply Hstop;
                [discriminate | discriminate | reflexivity | discriminate] ].
Qed.

(** X13. [get_chrome_version] only runs the version commands of the
    operating system, in their order, and makes no other call. It passes
    over a command that ends with a status other than zero or that
    cannot be run, and stops at the first command that is not passed
    over: the first that ends with status zero, whose last word it
    returns, never the empty text. It returns [None] only after all the
    commands were tried and passed over. *)
Theorem chrome_detection_calls (w : world) (t t' : list call)
    (r : result (option string)) :
  get_chrome_version w t = (r, t') →
  ∃ tried, tried `prefix_of` default [] (chrome_commands !! system w) ∧
           t' = t ++ map CallRun tried ∧
           (r = Return None →
            tried = default [] (chrome_commands !! system w)) ∧
           (∀ v, r = Return (Some v) → v ≠ "") ∧
           detection_stops w t tried r.
Proof. apply probe_chrome_calls. Qed.

Lemma chrome_detection_calls_witness :
  let w := with_chrome_120
             (example_world "linux" "x86_64" manifest_server
                (fun _ => true)) in
  ∃ tried, tried `prefix_of` default [] (chrome_commands !! "linux") ∧
           (get_chrome_version w []).2 = [] ++ map CallRun tried ∧
           ((get_chrome_version w []).1 = Return None →
            tried = default [] (chrome_commands !! "linux")) ∧
           (∀ v, (get_chrome_version w []).1 = Return (Some v) → v ≠ "") ∧
           detection_stops w [] tried (get_chrome_version w []).1.
Proof.
  intros w.
  apply (chrome_detection_calls w [] (get_chrome_version w []).2
           (get_chrome_version w []).1).
  vm_compute. reflexivity.
Defined.

(** *** The Python packages and the package manager *)

Lemma all_succeed_app w t argvs1 argvs2 :
  all_succeed w t (argvs1 ++ argvs2)
  = all_succeed w t argvs1
    && all_succeed w (t ++ map CallRun argvs1) argvs2.
Proof.
  revert t. induction argvs1 as [|a argvs1 IH]; intros t; simpl.
  - now rewrite app_nil_r.
  - rewrite IH, <- app_assoc. simpl. now rewrite andb_assoc.
Qed.

Lemma pip_install_calls (w : world) (packages : list string) :
  ∀ success t b t',
    pip_install w packages success t = (Return b, t') →
    t' = t ++ map CallRun (map (pip_argv w) packages) ∧
    b = success && all_succeed w t (map (pip_argv w) packages).
Proof.
  induction packages as [|package packages IH]; intros success t b t';
    simpl.
  - unfold ret. intros [= <- <-].
    now rewrite app_nil_r, andb_true_r.
  - run_monad. fold (pip_argv w package).
    destruct (run w t (pip_argv w package)) as [res|e]; simpl.
    + destruct (returncode res =? 0); simpl.
      * intros [-> ->]%IH. rewrite <- app_assoc. auto.
      * intros [-> ->]%IH. rewrite <- app_assoc. split; [reflexivity|].
        now rewrite andb_false_r.
    + destruct (called_process_error e); simpl; [|discriminate].
      intros [-> ->]%IH. rewrite <- app_assoc. split; [reflexivity|].
      now rewrite andb_false_r.
Qed.

(** X14. When [install_python_dependencies] returns, it has run [pip]
    for each of the four packages, in their order, also after a package
    that failed; it returns [True] exactly when every one of these
    commands ended with status zero. *)
Theorem python_dependencies_all_attempted (w : world) (t t' : list call)
    (b : bool) :
  install_python_dependencies w t = (Return b, t') →
  t' = t ++ map CallRun (map (pip_argv w) REQUIRED_PACKAGES) ∧
  b = all_succeed w t (map (pip_argv w) REQUIRED_PACKAGES).
Proof.
  unfold install_python_dependencies. intros H.
  apply pip_install_calls in H as [-> ->]. auto.
Qed.

Lemma python_dependencies_all_attempted_witness :
  let w := example_world "linux" "x86_64" manifest_server (fun _ => true) in
  (install_python_dependencies w []).2
  = [] ++ map CallRun (map (pip_argv w) REQUIRED_PACKAGES) ∧
  true = all_succeed w [] (map (pip_argv w) REQUIRED_PACKAGES).
Proof.
  intros w.
  apply (python_dependencies_all_attempted w []
           (install_python_dependencies w []).2 true).
  vm_compute. reflexivity.
Defined.

Lemma run_package_commands_true (w : world) (commands : list (list string)) :
  ∀ t t', run_package_commands w commands t = (Return true, t') ↔
          all_succeed w t commands = true ∧
          t' = t ++ map CallRun commands.
Proof.
  induction commands as [|cmd commands IH]; intros t t'; simpl.
  - unfold ret. rewrite app_nil_r. split.
    + intros [= <-]. auto.
    + intros [_ ->]. reflexivity.
  - run_monad.
    replace (t ++ CallRun cmd :: map CallRun commands)
      with ((t ++ [CallRun cmd]) ++ map CallRun commands)
      by (now rewrite <- app_assoc).
    destruct (run w t cmd) as [res|e]; simpl.
    + destruct (returncode res =? 0); simpl; [apply IH|].
      split; [discriminate | intros [[=] _]].
    + destruct (package_handles e); simpl;
        (split; [discriminate | intros [[=] _]]).
Qed.

Lemma run_package_commands_stops (w : world)
    (commands : list (list string)) :
  ∀ t r t', run_package_commands w commands t = (r, t') →
            r ≠ Return true →
            stops_at_failure w t commands t'.
Proof.
  induction commands as [|cmd commands IH]; intros t r t'; simpl.
  - unfold ret. intros [= <- <-] Hr. contradiction.
  - run_monad.
    assert (Hhere : all_succeed w t [cmd] = false →
              stops_at_failure w t (cmd :: commands) (t ++ [CallRun cmd])).
    { intros Hfail. exists [], cmd, commands. simpl. rewrite app_nil_r.
      auto. }
    simpl in Hhere.
    destruct (run w t cmd) as [res|e] eqn:Hcmd; simpl.
    + destruct (returncode res =? 0) eqn:Hrc; simpl.
      * intros Hrun Hr.
        destruct (IH _ _ _ Hrun Hr) as (pre & c & rest & -> & Hpre & Hc & ->).
        exists (cmd :: pre), c, rest. simpl. rewrite Hcmd, Hrc, Hpre.
        rewrite <- !app_assoc in *. simpl in *. auto.
      * intros [= <- <-] _. apply Hhere. reflexivity.
    + destruct (package_handles e); simpl;
        intros [= <- <-] _; apply Hhere; reflexivity.
Qed.

(** X15. [install_via_package_manager] returns [True] exactly when every
    command of the package manager of the system, and after them
    [chromedriver --version], ended with status zero; these are then the
    only calls it made. In every other case one of these commands did
    not end with status zero: the method ends there, with [False] or
    with the exception of the command, and the commands after it are
    not run. *)
Theorem package_manager_true_iff (w : world) (t t' : list call) :
  let argvs := default [] (package_commands !! system w)
               ++ [chromedriver_version] in
  (install_via_package_manager w t = (Return true, t') ↔
   all_succeed w t argvs = true ∧ t' = t ++ map CallRun argvs) ∧
  (∀ r, install_via_package_manager w t = (r, t') → r ≠ Return true →
        stops_at_failure w t argvs t').
Proof.
  cbv zeta. unfold install_via_package_manager.
  set (commands := default [] (package_commands !! system w)).
  split.
  - rewrite all_succeed_app, map_app, app_assoc. simpl.
    rewrite andb_true_r, andb_true_iff.
    unfold mbind at 1, M_bind at 1, bind at 1.
    destruct (run_package_commands w commands t) as [[[]|e] t1] eqn:Hrun.
    + apply run_package_commands_true in Hrun as [Hall ->].
      rewrite Hall. run_monad. unfold chromedriver_version.
      destruct (run w _ ["chromedriver"; "--version"]) as [res|e]; simpl.
      * destruct (returncode res =? 0).
        -- split; [intros [= <-]; auto | intros [_ ->]; reflexivity].
        -- split; [discriminate | intros [[_ [=]] _]].
      * destruct (file_not_found e); simpl;
          (split; [discriminate | intros [[_ [=]] _]]).
    + unfold ret. split; [discriminate|].
      intros [[Hall _] ->].
      assert (Habs : run_package_commands w commands t
                     = (Return true, t ++ map CallRun commands))
        by (apply run_package_commands_true; auto).
      rewrite Hrun in Habs. discriminate.
    + split; [discriminate|].
      intros [[Hall _] ->].
      assert (Habs : run_package_commands w commands t
                     = (Return true, t ++ map CallRun commands))
        by (apply run_package_commands_true; auto).
      rewrite Hrun in Habs. discriminate.
  - intros r. unfold mbind at 1, M_bind at 1, bind at 1.
    assert (Hearly : ∀ r1 t1, run_package_commands w commands t = (r1, t1) →
              r1 ≠ Return true →
              stops_at_failure w t (commands ++ [chromedriver_version]) t1).
    { intros r1 t1 Hrun Hr1.
      destruct (run_package_commands_stops w commands t r1 t1 Hrun Hr1)
        as (pre & c & rest & Hcommands & Hpre & Hc & ->).
      exists pre, c, (rest ++ [chromedriver_version]).
      rewrite Hcommands, <- app_assoc. simpl. auto. }
    destruct (run_package_commands w commands t) as [[[]|e] t1] eqn:Hrun.
    + apply run_package_commands_true in Hrun as [Hall ->].
      intros Hlast Hr.
      exists commands, chromedriver_version, []. rewrite map_app. simpl.
      split; [reflexivity|]. split; [exact Hall|].
      revert Hlast. run_monad. unfold chromedriver_version.
      destruct (run w _ ["chromedriver"; "--version"]) as [res|e]; simpl.
      * destruct (returncode res =? 0); intros [= <- <-];
          [contradiction|].
        split; [reflexivity | now rewrite app_assoc].
      * destruct (file_not_found e); simpl; intros [= <- <-];
          (split; [reflexivity | now rewrite app_assoc]).
    + unfold ret. intros [= <- <-] _. eapply Hearly; [reflexivity|].
      discriminate.
    + intros [= <- <-] _. eapply Hearly; [reflexivity|]. discriminate.
Qed.

(** Without [sudo] the first command of the package manager cannot be
    run: the method ends there. *)
Lemma package_manager_true_iff_witness :
  let w := example_world "linux" "x86_64" manifest_server (fun _ => true) in
  install_via_package_manager w []
  = (Return false, [CallRun ["sudo"; "apt-get"; "update"]]) ∧
  stops_at_failure w []
    (default [] (package_commands !! "linux") ++ [chromedriver_version])
    [CallRun ["sudo"; "apt-get"; "update"]].
Proof.
  intros w. split; [vm_compute; reflexivity|].
  apply (package_manager_true_iff w []
           [CallRun ["sudo"; "apt-get"; "update"]]) with (r := Return false);
    [vm_compute; reflexivity | discriminate].
Defined.

(** On Windows there is no package manager: the method only asks for a
    driver that is already installed. *)
Example package_manager_on_windows :
  let w := World "windows" "amd64" "python"
             (fun _ _ => Return (Completed 0 "ChromeDriver 120" ""))
             manifest_server (fun _ _ _ => Raise FileNotFoundError)
             (fun _ _ => Return false) (fun _ => true) true true in
  install_via_package_manager w []
  = (Return true, [CallRun ["chromedriver"; "--version"]]).
Proof. vm_compute. reflexivity. Qed.

(** *** The pair taken from the manifest *)

Lemma platform_is_true dl platform_id :
  platform_is dl platform_id = true → platform dl = Some platform_id.
Proof.
  unfold platform_is. destruct (platform dl) as [q|]; [|discriminate].
  now intros ->%String.eqb_eq.
Qed.

Lemma scan_downloads_from_manifest vs platform_id vi st :
  In vi vs → from_manifest vs platform_id st →
  from_manifest vs platform_id
    (scan_downloads platform_id (version vi) (chromedriver vi) st).
Proof.
  intros Hvi Hst. rewrite scan_downloads_find.
  destruct (List.find _ _) as [dl|] eqn:Hfind; [|exact Hst].
  apply find_some in Hfind as [Hin Hp]. right.
  exists vi, dl. auto using platform_is_true.
Qed.

Lemma scan_versions_from_manifest vs0 chrome_major platform_id vs :
  (∀ vi, In vi vs → In vi vs0) →
  ∀ st, from_manifest vs0 platform_id st →
        from_manifest vs0 platform_id
          (scan_versions chrome_major platform_id vs st).
Proof.
  induction vs as [|vi vs IH]; intros Hsub st Hst; simpl; [exact Hst|].
  assert (Hvs : ∀ vi', In vi' vs → In vi' vs0)
    by (intros; apply Hsub; now right).
  destruct (startswith (version vi) chrome_major); [|now apply IH].
  assert (Hst' : from_manifest vs0 platform_id
                   (scan_downloads platform_id (version vi)
                      (chromedriver vi) st))
    by (apply scan_downloads_from_manifest; [apply Hsub; now left | exact Hst]).
  destruct (truthy_opt _); [exact Hst' | now apply IH].
Qed.

Lemma modern_choice_from_manifest chrome_version platform_id vs :
  from_manifest vs platform_id (modern_choice chrome_version platform_id vs).
Proof.
  unfold modern_choice. cbv zeta.
  match goal with
  | |- from_manifest _ _ (if negb (truthy_opt (fst ?x)) then _ else _) =>
      set (st := x)
  end.
  assert (Hst : from_manifest vs platform_id st).
  { subst st. destruct chrome_version as [cv|]; [|now left].
    destruct (truthy cv); [|now left].
    apply scan_versions_from_manifest; [|now left].
    intros vi Hin. now apply in_rev. }
  destruct (negb (truthy_opt st.1)); [|exact Hst].
  destruct (last vs) as [latest|] eqn:Hlast; [|exact Hst].
  apply scan_downloads_from_manifest; [|exact Hst].
  apply last_Some in Hlast as [l ->]. apply in_or_app. right. now left.
Qed.

(** X16. A pair that the modern interface returns is offered by the
    manifest it received: the version is that of one entry and the
    address is that of a download of this very entry for the platform of
    the host; neither is empty. *)
Theorem modern_pair_is_offered (w : world) (chrome_version : option string)
    (platform_id : string) (t t' : list call) (v u : string) :
  query_modern w chrome_version platform_id t = (Return (Some (v, u)), t') →
  v ≠ "" ∧ u ≠ "" ∧
  ∃ resp data,
    requests_get w t CHROME_FOR_TESTING_API = Return resp ∧
    json resp = Return data ∧
    offered (versions data) platform_id v u.
Proof.
  unfold query_modern. run_monad.
  destruct (requests_get w t CHROME_FOR_TESTING_API) as [resp|e] eqn:Hget;
    [|discriminate].
  destruct (raise_for_status resp) as [[]|e]; [|discriminate].
  destruct (json resp) as [data|e] eqn:Hjson; [|discriminate].
  pose proof (modern_choice_from_manifest chrome_version platform_id
                (versions data)) as Hfrom.
  destruct (modern_choice chrome_version platform_id (versions data))
    as [[tv|] [a|]]; simpl; try discriminate.
  destruct (truthy tv) eqn:Htv; simpl; [|discriminate].
  destruct (truthy a) eqn:Ha; simpl; [|discriminate].
  intros [= -> -> _].
  split; [intros ->; discriminate|]. split; [intros ->; discriminate|].
  exists resp, data. split; [reflexivity|]. split; [exact Hjson|].
  destruct Hfrom as [[=]|(vi & dl & Hvi & Hdl & Hp & [= -> Hu])].
  exists vi, dl. auto.
Qed.

Lemma modern_pair_is_offered_witness :
  let w := with_chrome_120
             (example_world "linux" "x86_64" manifest_server (fun _ => true)) in
  "120.0.6099.71" ≠ "" ∧ "https://example.org/120a/linux64.zip" ≠ "" ∧
  ∃ resp data,
    requests_get w [] CHROME_FOR_TESTING_API = Return resp ∧
    json resp = Return data ∧
    offered (versions data) "linux64" "120.0.6099.71"
      "https://example.org/120a/linux64.zip".
Proof.
  intros w.
  apply (modern_pair_is_offered w (Some "120.0.6099.109") "linux64" []
           [CallGet CHROME_FOR_TESTING_API]).
  vm_compute. reflexivity.
Defined.

(** *** The requests of the resolution *)

Lemma query_modern_returns w chrome_version platform_id t :
  ∃ x, query_modern w chrome_version platform_id t
       = (Return x, t ++ [CallGet CHROME_FOR_TESTING_API]).
Proof.
  unfold query_modern. run_monad.
  destruct (requests_get w t CHROME_FOR_TESTING_API) as [resp|e]; [|eauto].
  destruct (raise_for_status resp) as [[]|e]; [|eauto].
  destruct (json resp) as [data|e]; [|eauto]. simpl.
  destruct (modern_choice chrome_version platform_id (versions data))
    as [[tv|] [a|]]; simpl; eauto.
  destruct (truthy tv && truthy a); eauto.
Qed.

Lemma query_legacy_calls w platform_id t :
  ∃ r, query_legacy w platform_id t = (r, t ++ [CallGet LEGACY_API]).
Proof.
  unfold query_legacy. run_monad.
  destruct (requests_get w t LEGACY_API) as [resp|e]; [|eauto].
  destruct (raise_for_status resp) as [[]|e]; eauto.
Qed.

(** X17. Whatever happens, the resolution of the version runs version
    commands of the browser and then sends at most two requests: the
    first to the modern interface, the second to the legacy endpoint. It
    contacts no other address, and it never returns a version without
    having asked the network. *)
Theorem resolution_requests (w : world) (t t' : list call)
    (r : result (string * string)) :
  get_compatible_chromedriver_version w t = (r, t') →
  ∃ probes gets,
    t' = t ++ map CallRun probes ++ map CallGet gets ∧
    (gets = [] ∨ gets = [CHROME_FOR_TESTING_API] ∨
     gets = [CHROME_FOR_TESTING_API; LEGACY_API]) ∧
    (∀ found, r = Return found → gets ≠ []).
Proof.
  unfold get_compatible_chromedriver_version, get_chrome_version.
  unfold mbind at 1, M_bind at 1, bind at 1.
  destruct (probe_chrome w _ t) as [[cv|e] t1] eqn:Hcv;
    apply probe_chrome_calls in Hcv as (probes & _ & -> & _).
  2:{ intros [= <- <-]. exists probes, []. simpl.
      split; [now rewrite app_nil_r|]. split; [auto|]. intros found [=]. }
  assert (Hstop : ∀ e, (Raise e, t ++ map CallRun probes) = (r, t') →
            ∃ probes gets,
              t' = t ++ map CallRun probes ++ map CallGet gets ∧
              (gets = [] ∨ gets = [CHROME_FOR_TESTING_API] ∨
               gets = [CHROME_FOR_TESTING_API; LEGACY_API]) ∧
              (∀ found, r = Return found → gets ≠ [])).
  { intros e [= <- <-]. exists probes, []. simpl.
    split; [now rewrite app_nil_r|]. split; [auto|]. intros found [=]. }
  destruct (get_platform_identifier w) as [p|]; [|apply Hstop].
  destruct (truthy p); simpl; [|apply Hstop].
  unfold mbind, M_bind, bind.
  destruct (query_modern_returns w cv p (t ++ map CallRun probes))
    as [x ->].
  destruct x as [found|].
  - unfold ret. intros [= <- <-].
    exists probes, [CHROME_FOR_TESTING_API]. simpl.
    rewrite <- app_assoc. split; [reflexivity|]. split; [auto|].
    intros _ _. discriminate.
  - destruct (query_legacy_calls w p
                ((t ++ map CallRun probes) ++ [CallGet CHROME_FOR_TESTING_API]))
      as [r' ->].
    intros [= <- <-].
    exists probes, [CHROME_FOR_TESTING_API; LEGACY_API]. simpl.
    rewrite <- !app_assoc. split; [reflexivity|]. split; [auto|].
    intros _ _. discriminate.
Qed.

Lemma resolution_requests_witness :
  let w := with_chrome_120
             (example_world "windows" "amd64" legacy_only (fun _ => true)) in
  ∃ probes gets,
    (get_compatible_chromedriver_version w []).2
    = [] ++ map CallRun probes ++ map CallGet gets ∧
    (gets = [] ∨ gets = [CHROME_FOR_TESTING_API] ∨
     gets = [CHROME_FOR_TESTING_API; LEGACY_API]) ∧
    (∀ found, (get_compatible_chromedriver_version w []).1 = Return found →
              gets ≠ []).
Proof.
  intros w.
  apply (resolution_requests w []
           (get_compatible_chromedriver_version w []).2
           (get_compatible_chromedriver_version w []).1).
  vm_compute. reflexivity.
Defined.

End InstallerFurther.

(** ** Properties of the installer at work on the host *)

Section BodiesProperties.
Import Py Bodies BodiesSpec.

Ltac run_writer :=
  unfold sudo_checked;
  unfold mbind, W_bind, w_bind, w_catch, w_ret, w_raise, perform,
    every_exception; simpl.

(** *** [download_and_extract] *)

Lemma find_executable_first (h : host) (walk : list (string * list string)) :
  ∀ path l, find_executable h walk = (Return path, l) →
    ∃ before root files after,
      walk = before ++ (root, files) :: after ∧
      In (executable_name h) files ∧
      Forall (fun d => ¬ In (executable_name h) d.2) before ∧
      path = join h root (executable_name h) ∧
      (is_unix h = false → l = []).
Proof.
  induction walk as [|[root files] walk IH]; intros path l; simpl.
  - discriminate.
  - destruct (existsb (String.eqb (executable_name h)) files) eqn:Hex.
    + apply existsb_exists in Hex as (f & Hin & ->%String.eqb_eq).
      run_writer. destruct (is_unix h); simpl.
      * destruct (chmod h _); [|discriminate]. intros [= <- <-].
        exists [], root, files, walk. repeat split; auto. discriminate.
      * intros [= <- <-].
        exists [], root, files, walk. repeat split; auto.
    + intros (before & root' & files' & after & -> & Hin & Hno & -> & Hl)%IH.
      exists ((root, files) :: before), root', files', after.
      repeat split; auto. constructor; [|exact Hno]. simpl.
      intros Hin'. apply not_true_iff_false in Hex. apply Hex.
      apply existsb_exists. exists (executable_name h).
      split; [exact Hin' | apply String.eqb_refl].
Qed.

(** X18. A path that [download_and_extract] returns is the executable of
    the system, [chromedriver.exe] on Windows and [chromedriver]
    elsewhere, joined to the first directory of the extracted archive
    that holds a file of this name. On a system other than Linux and
    macOS no permission is changed. *)
Theorem download_returns_first_executable (h : host)
    (download_url v path : string) (l : list action) :
  download_and_extract h download_url v = (Return path, l) →
  ∃ walk before root files after,
    extract_all h (join h (temp_dir h) "chromedriver.zip")
                  (join h (temp_dir h) "extracted") = Return walk ∧
    walk = before ++ (root, files) :: after ∧
    In (executable_name h) files ∧
    Forall (fun d => ¬ In (executable_name h) d.2) before ∧
    path = join h root (executable_name h) ∧
    (is_unix h = false → existsb is_chmod l = false).
Proof.
  unfold download_and_extract. run_writer.
  destruct (fetch h download_url); [|discriminate].
  destruct (write_zip h _); [|discriminate].
  destruct (makedirs h _); [|discriminate].
  destruct (extract_all h _ _) as [walk|e]; [|discriminate].
  destruct (find_executable h walk) as [[p|e] l'] eqn:Hfind; [|discriminate].
  intros [= <- <-].
  apply find_executable_first in Hfind
    as (before & root & files & after & Hw & Hin & Hno & Hp & Hl).
  exists walk, before, root, files, after. repeat split; auto.
  intros Hu. rewrite (Hl Hu). reflexivity.
Qed.

Lemma download_returns_first_executable_witness :
  let h := example_host "windows" (fun _ => true)
             [ ("/tmp/x/extracted", ["LICENSE"]);
               ("/tmp/x/extracted/chromedriver-win64",
                ["chromedriver"; "chromedriver.exe"]) ]
             (Return (Completed 0 "" "")) (Raise ImportError) in
  ∃ walk before root files after,
    extract_all h (join h (temp_dir h) "chromedriver.zip")
                  (join h (temp_dir h) "extracted") = Return walk ∧
    walk = before ++ (root, files) :: after ∧
    In (executable_name h) files ∧
    Forall (fun d => ¬ In (executable_name h) d.2) before ∧
    "/tmp/x/extracted/chromedriver-win64/chromedriver.exe"
    = join h root (executable_name h) ∧
    (is_unix h = false →
     existsb is_chmod
       [ Fetch "https://example.org/win64.zip";
         WriteZip "/tmp/chromedriver_install_x/chromedriver.zip";
         Makedirs "/tmp/chromedriver_install_x/extracted";
         ExtractAll "/tmp/chromedriver_install_x/chromedriver.zip"
                    "/tmp/chromedriver_install_x/extracted" ] = false).
Proof.
  intros h.
  apply (download_returns_first_executable h "https://example.org/win64.zip"
           "120.0.6099.109").
  vm_compute. reflexivity.
Defined.

(** An archive that holds the driver under the name of another system is
    refused. *)
Example download_wrong_system :
  (download_and_extract
     (example_host "windows" (fun _ => true)
        [ ("/tmp/x/extracted/chromedriver-linux64", ["chromedriver"]) ]
        (Return (Completed 0 "" "")) (Raise ImportError))
     "https://example.org/linux64.zip" "120.0.6099.109").1
  = Raise FileNotFoundError.
Proof. vm_compute. reflexivity. Qed.

(** *** [install_to_system] *)

Lemma install_for_user_returns (h : host) (src : string) :
  ∃ b l, install_for_user h src = (Return b, l) ∧
         existsb is_sudo l = false.
Proof.
  unfold install_for_user. run_writer.
  destruct (makedirs h (user_bin h)); [|eauto].
  destruct (copy2 h src _); [|eauto].
  destruct (negb (is_windows h)); simpl; [|eauto].
  destruct (chmod h _); eauto.
Qed.

Lemma try_locations_skips (h : host) (src : string)
    (locations : list string) :
  is_windows h = false →
  Forall (fun location => path_exists h location = false) locations →
  try_locations h src locations = (Return false, []).
Proof.
  intros Hw. induction 1 as [|location locations Hl _ IH]; simpl.
  - reflexivity.
  - unfold install_at. rewrite Hl, Hw. run_writer. now rewrite IH.
Qed.

(** X19. On a system other than Windows, when none of the system
    directories exists, [install_to_system] runs no [sudo] command at
    all: it skips every location, installs into the directory of the
    user and returns what that attempt gives, without raising. *)
Theorem missing_directories_skip_sudo (h : host) (src : string) :
  is_windows h = false →
  Forall (fun location => path_exists h location = false)
         (default [] (target_locations h !! system h)) →
  install_to_system h src = install_for_user h src ∧
  ∃ b l, install_to_system h src = (Return b, l) ∧
         existsb is_sudo l = false.
Proof.
  intros Hw Hmissing.
  assert (Heq : install_to_system h src = install_for_user h src).
  { unfold install_to_system.
    rewrite (try_locations_skips h src _ Hw Hmissing). run_writer.
    destruct (install_for_user h src) as [r l]. reflexivity. }
  split; [exact Heq|]. rewrite Heq. apply install_for_user_returns.
Qed.

Lemma missing_directories_skip_sudo_witness :
  let h := example_host "darwin" (fun _ => false) []
             (Return (Completed 0 "" "")) (Raise ImportError) in
  install_to_system h "/tmp/x/chromedriver"
  = (Return true,
     [ Makedirs "/home/user/.local/bin";
       Copy "/tmp/x/chromedriver" "/home/user/.local/bin/chromedriver";
       Chmod "/home/user/.local/bin/chromedriver" ]).
Proof.
  intros h.
  destruct (missing_directories_skip_sudo h "/tmp/x/chromedriver")
    as [-> _].
  - reflexivity.
  - vm_compute. repeat constructor.
  - vm_compute. reflexivity.
Defined.

Lemma try_locations_outcome (h : host) (src : string)
    (locations : list string) :
  ∀ r l, try_locations h src locations = (r, l) →
         (∃ b, r = Return b) ∨ (∃ e, r = Raise e ∧ location_handles e = false).
Proof.
  induction locations as [|location locations IH]; intros r l; simpl.
  - intros [= <- <-]. left. eauto.
  - unfold mbind, W_bind, w_bind, w_catch.
    destruct (install_at h src location) as [[[]|e] l1]; simpl.
    + intros [= <- <-]. left. eauto.
    + destruct (try_locations h src locations) as [r2 l2] eqn:H2.
      intros [= <- <-]. eapply IH. reflexivity.
    + destruct (location_handles e) eqn:He; simpl.
      * destruct (try_locations h src locations) as [r2 l2] eqn:H2.
        intros [= <- <-]. eapply IH. reflexivity.
      * intros [= <- <-]. right. eauto.
Qed.

(** X20. [install_to_system] returns [False] only when the copy into the
    directory of the user has failed, after every system location has;
    and it raises only an exception that is neither a
    [CalledProcessError] nor an [OSError], met at a system location. *)
Theorem install_to_system_failures (h : host) (src : string)
    (r : result bool) (l : list action) :
  install_to_system h src = (r, l) →
  (r = Return false → (install_for_user h src).1 = Return false) ∧
  (∀ e, r = Raise e → location_handles e = false).
Proof.
  unfold install_to_system. unfold mbind, W_bind, w_bind.
  destruct (try_locations h src _) as [r1 l1] eqn:H1.
  apply try_locations_outcome in H1 as [[b ->]|(e & -> & He)].
  - destruct b.
    + intros [= <- <-]. split; [discriminate | intros e; discriminate].
    + destruct (install_for_user_returns h src) as (b & l2 & Hu & _).
      rewrite Hu. intros [= <- <-]. split; [auto | intros e; discriminate].
  - intros [= <- <-]. split; [discriminate|]. intros e' [= <-]. exact He.
Qed.

Lemma install_to_system_failures_witness :
  let h := example_host "linux" (fun _ => true) []
             (Raise TimeoutExpired) (Raise ImportError) in
  location_handles TimeoutExpired = false.
Proof.
  intros h.
  apply (install_to_system_failures h "/tmp/x/chromedriver"
           (install_to_system h "/tmp/x/chromedriver").1
           (install_to_system h "/tmp/x/chromedriver").2).
  - vm_compute. reflexivity.
  - vm_compute. reflexivity.
Defined.

(** A location that refuses the copy is followed by the next one. *)
Example install_to_second_location :
  let h := Host "linux" "/tmp/t" (fun a b => a +:+ "/" +:+ b)
             "" "/home/user/.local/bin" (fun _ => true)
             (fun _ => Return tt) (fun _ _ => Return tt)
             (fun argv =>
                if String.eqb (nth 3 argv "") "/usr/local/bin/chromedriver"
                then Return (Completed 1 "" "cp: permission denied")
                else Return (Completed 0 "" ""))
             (fun _ => Return tt) (fun _ => Return tt) (fun _ => Return tt)
             (fun _ _ => Return []) (Return tt) (Raise ImportError)
             (Raise ImportError) in
  install_to_system h "/tmp/t/chromedriver"
  = (Return true,
     [ Sudo ["sudo"; "cp"; "/tmp/t/chromedriver";
             "/usr/local/bin/chromedriver"];
       Sudo ["sudo"; "cp"; "/tmp/t/chromedriver"; "/usr/bin/chromedriver"];
       Sudo ["sudo"; "chmod"; "+x"; "/usr/bin/chromedriver"] ]).
Proof. vm_compute. reflexivity. Qed.

(** *** [verify_installation] *)

(** X21. [verify_installation] never raises. It returns [True] exactly
    when a browser starts, by one of the two ways, the test page loads,
    its title can be read, whatever it is, and the browser closes. The
    browser is closed only after the title was read: when the page does
    not load, or the title cannot be read, the session is left open. *)
Theorem verification_outcome (h : host) :
  ∃ b l, verify_installation h = (Return b, l) ∧
    (b = true ↔
     ∃ d, started h = Some d ∧ page_read d = true ∧
          is_return (quit d) = true) ∧
    (In QuitBrowser l ↔ ∃ d, started h = Some d ∧ page_read d = true).
Proof.
  unfold verify_installation, start_browser, started, page_read.
  destruct (selenium_import h) as [[]|e0];
    [destruct (launch_chrome h) as [d|e1];
     [|destruct (launch_managed h) as [d|e2]]|];
    run_writer;
    try (destruct (open_page d) as [[]|e3] eqn:Hopen;
         [destruct (title d) as [s0|e4] eqn:Htitle;
          [destruct (quit d) as [[]|e5] eqn:Hquit|]|]);
    simpl; (eexists _, _; split; [reflexivity|]); simpl;
    (split;
     (split;
      [ intros H;
        first [ discriminate H
              | exfalso; intuition discriminate
              | eexists; split; [reflexivity|];
                repeat match goal with
                       | Hx : _ = Return _ |- _ => rewrite Hx
                       end; simpl; auto ]
      | intros (d' & Hd & Hrest);
        first [ discriminate Hd
              | injection Hd as <-;
                repeat match goal with
                       | Hx : _ = Return _ |- _ => rewrite Hx in Hrest
                       | Hx : _ = Raise _ |- _ => rewrite Hx in Hrest
                       end;
                simpl in Hrest;
                first [ reflexivity
                      | discriminate Hrest
                      | destruct Hrest; discriminate
                      | simpl; tauto ] ] ])).
Qed.

(** The page does not load: the verification fails and the browser is
    not closed. *)
Example verification_leaves_browser :
  verify_installation
    (example_host "linux" (fun _ => true) [] (Return (Completed 0 "" ""))
       (Return (Session (Raise (WebDriverException "net::ERR"))
                        (Return "") (Return tt))))
  = (Return false, [LaunchChrome; OpenPage "https://www.google.com"]).
Proof. vm_compute. reflexivity. Qed.

(** An empty title passes the verification. *)
Example verification_ignores_title :
  verify_installation
    (example_host "linux" (fun _ => true) [] (Return (Completed 0 "" ""))
       (Return (Session (Return tt) (Return "") (Return tt))))
  = (Return true,
     [LaunchChrome; OpenPage "https://www.google.com"; ReadTitle;
      QuitBrowser]).
Proof. vm_compute. reflexivity. Qed.

End BodiesProperties.

(** ** The exit status of the installer *)

Section InstallerExit.
Import Installer InstallerSpec.

Lemma install_as_first_verified (w : world) (t : list call) :
  install w t =
  match install_python_dependencies w t with
  | (Raise e, t0) => (Raise e, t0)
  | (Return _, t0) =>
      if can_print w then first_verified w t0 else (Return false, t0)
  end.
Proof.
  unfold install. unfold mbind at 1, M_bind at 1, bind at 1.
  destruct (install_python_dependencies w t) as [[b0|e] t0];
    [|reflexivity].
  destruct (can_print w) eqn:Hp.
  - apply try_methods_first_verified, Hp.
  - apply try_methods_unprintable, Hp.
Qed.

(** X22. [main] makes a verbose installer. It exits with status 0
    exactly when its temporary directory could be made, the standard
    output encodes the pictographs of the messages of progress, the
    installation of the Python packages did not raise, and one of the
    two methods, in their order, installed a driver that was verified;
    in every other case it exits with status 1. Once made, the temporary
    directory is removed on every path, if it still exists. *)
Theorem installer_exit_status (w : world) (t : list call)
    (mkdtemp : result string) (tmp_exists : string → bool) :
  verbose w = true →
  let outcome := Bodies.main mkdtemp (install w t).1 tmp_exists in
  (outcome.1 = 0 ∨ outcome.1 = 1) ∧
  (outcome.1 = 0 ↔
   is_return mkdtemp = true ∧
   stdout_unicode w = true ∧
   ∃ b0 t0, install_python_dependencies w t = (Return b0, t0) ∧
     let first := attempt w (install_via_package_manager w) t0 in
     first.1 = true ∨ (attempt w (_install_manual w) first.2).1 = true) ∧
  (∀ tmp, mkdtemp = Return tmp → tmp_exists tmp = true →
          In (Bodies.Rmtree tmp) outcome.2).
Proof.
  intros Hverbose. cbv zeta. rewrite install_as_first_verified.
  unfold can_print. rewrite Hverbose. cbn [negb orb]. unfold Bodies.main.
  destruct (install_python_dependencies w t) as [[b0|e] t0] eqn:Hdeps.
  2:{ destruct mkdtemp as [tmp|e']; simpl.
      - split; [auto|]. split.
        + split; [discriminate|]. intros (_ & _ & ? & ? & [=] & _).
        + intros ? [= <-] ->. simpl. auto.
      - split; [auto|]. split.
        + split; [discriminate|]. intros ([=] & _).
        + intros ? [=]. }
  destruct (stdout_unicode w).
  2:{ destruct mkdtemp as [tmp|e']; simpl.
      - split; [auto|]. split.
        + split; [discriminate|]. intros (_ & [=] & _).
        + intros ? [= <-] ->. simpl. auto.
      - split; [auto|]. split.
        + split; [discriminate|]. intros ([=] & _).
        + intros ? [=]. }
  unfold first_verified.
  destruct (attempt w (install_via_package_manager w) t0) as [ok1 t1]
    eqn:Ha1.
  destruct (attempt w (_install_manual w) t1) as [ok2 t2] eqn:Ha2.
  assert (Hkey :
    (∃ b t', (Return b0, t0) = (Return b, t') ∧
       ((attempt w (install_via_package_manager w) t').1 = true ∨
        (attempt w (_install_manual w)
           (attempt w (install_via_package_manager w) t').2).1 = true))
    ↔ ok1 = true ∨ ok2 = true).
  { split.
    - intros (b & t' & [= <- <-] & H). rewrite Ha1 in H. simpl in H.
      rewrite Ha2 in H. exact H.
    - intros H. exists b0, t0. split; [reflexivity|].
      rewrite Ha1. simpl. rewrite Ha2. exact H. }
  rewrite Hkey. clear Hkey.
  destruct ok1, ok2, mkdtemp as [tmp|e']; simpl;
    (split; [auto|]);
    (split;
     [ split;
       [ intros H;
         first [discriminate H
               | split; [reflexivity | split; [reflexivity | auto]]]
       | intros (H1 & _ & H2);
         first [reflexivity | discriminate H1 | destruct H2; discriminate] ]
     | intros tmp' H1 H2;
       first [discriminate H1
             | injection H1 as <-; rewrite H2; simpl; auto] ]).
Qed.

(** The package manager installs a driver that is verified: the exit
    status is 0 when the messages can be printed, and 1, with the same
    commands at hand, when they cannot. *)
Lemma installer_exit_status_witness :
  (Bodies.main (Return "/tmp/chromedriver_install_x")
     (install package_manager_world []).1 (fun _ => true)).1 = 0 ∧
  (Bodies.main (Return "/tmp/chromedriver_install_x")
     (install (with_ascii_stdout package_manager_world) []).1
     (fun _ => true)).1 ≠ 0 ∧
  In (Bodies.Rmtree "/tmp/chromedriver_install_x")
     (Bodies.main (Return "/tmp/chromedriver_install_x")
        (install package_manager_world []).1 (fun _ => true)).2.
Proof.
  pose proof (installer_exit_status package_manager_world []
                (Return "/tmp/chromedriver_install_x") (fun _ => true)
                eq_refl) as (_ & Hzero & Hclean).
  pose proof (installer_exit_status
                (with_ascii_stdout package_manager_world) []
                (Return "/tmp/chromedriver_install_x") (fun _ => true)
                eq_refl) as (_ & Hone & _).
  split; [|split].
  - apply Hzero. split; [reflexivity|]. split; [reflexivity|].
    exists true, (map CallRun
                    (map (pip_argv package_manager_world)
                       REQUIRED_PACKAGES)).
    split; [vm_compute; reflexivity | left; vm_compute; reflexivity].
  - intros (_ & Habs & _)%Hone. discriminate Habs.
  - apply (Hclean "/tmp/chromedriver_install_x"); reflexivity.
Defined.

(** On a system without a package manager and without a platform tag
    both methods fail and the installer exits with status 1. *)
Example installer_fails_on_unknown_system :
  let w := example_world "freebsd" "amd64" manifest_server (fun _ => true) in
  (Bodies.main (Return "/tmp/t") (install w []).1 (fun _ => true)).1 = 1.
Proof. vm_compute. reflexivity. Qed.

End InstallerExit.
